(** * The sudoers policy fuzzer: plugins/sudoers/regress/fuzz/fuzz_policy.c

    A shallow embedding of the harness that turns a fuzz buffer into the
    five string vectors of the sudoers policy plugin, drives the plugin
    through open / check_policy / close and releases its vectors again,
    together with the two callbacks it hands to the plugin.

    C objects are modelled by value:
    - [size_t] and [int] are [Z] with the wrap-around written out;
    - a [char *] string is a [string]; a byte buffer may hold NUL bytes
      and the C string it denotes stops at the first of them;
    - a [char **] vector is a list of slots, [None] being the NULL
      pointer;
    - undefined behaviour (a store or a load outside a buffer, a load of
      an uninitialised slot) is the result [None] of the state monad. *)

From Stdlib Require Import ZArith Lia Ascii String.
From stdpp Require Import base option list strings.
From Equations Require Import Equations.

Local Open Scope Z_scope.

(** ** C arithmetic and strings *)

Module C.

(** The LP64 data model: 64-bit [size_t], 32-bit [int], 8-byte pointers. *)
Definition SIZE_MAX : Z := 2 ^ 64 - 1.
Definition sizeof_ptr : Z := 8.

(** Reduction of an unsigned result modulo [SIZE_MAX + 1]. *)
Definition size_t (z : Z) : Z := z mod 2 ^ 64.

(** Conversion to [int] (two's complement, 32 bits). *)
Definition int (z : Z) : Z := (z + 2 ^ 31) mod 2 ^ 32 - 2 ^ 31.

(** [e != NULL] as the integer 0 or 1. *)
Definition nonnull {A} (p : option A) : Z :=
  match p with Some _ => 1 | None => 0 end.

Definition NUL : ascii := Ascii.zero.
Definition LF : ascii := "010"%char.

Definition code (c : ascii) : Z := Z.of_nat (nat_of_ascii c).

(** The C string held by a byte buffer: the bytes before the first NUL. *)
Fixpoint cstring (buf : string) : string :=
  match buf with
  | EmptyString => EmptyString
  | String c rest => if Ascii.eqb c NUL then EmptyString else String c (cstring rest)
  end.

(** [buf[0]]: the first byte, or the terminating NUL of an empty buffer. *)
Definition first_byte (buf : string) : ascii :=
  match buf with
  | EmptyString => NUL
  | String c _ => c
  end.

Definition strlen (s : string) : Z := Z.of_nat (String.length (cstring s)).

(** [strncmp(s1, s2, n)]: compares at most [n] bytes, stops after a NUL;
    the end of a buffer is its terminating NUL. *)
Fixpoint strncmp (s1 s2 : string) (n : nat) {struct n} : Z :=
  match n with
  | O => 0
  | S n' =>
      let c1 := first_byte s1 in
      let c2 := first_byte s2 in
      if Ascii.eqb c1 c2 then
        if Ascii.eqb c1 NUL then 0
        else
          match s1, s2 with
          | String _ r1, String _ r2 => strncmp r1 r2 n'
          | _, _ => 0
          end
      else code c1 - code c2
  end.

(** [sizeof(lit) - 1] for a string literal. *)
Definition sizeof_lit (lit : string) : nat := String.length lit.

End C.

(** ** The allocator

    Whether an allocation request succeeds is decided by the environment:
    [mem_ok k] tells whether the [k]-th request of the run is granted.  The
    state of a computation is the number of requests made so far. *)

Module Mem.

Definition oracle : Type := nat -> bool.

(** State (the request counter) and undefined behaviour ([None]). *)
Definition M (A : Type) : Type := nat -> option (A * nat).

Definition ret {A} (a : A) : M A := fun k => Some (a, k).

Definition bind {A B} (m : M A) (f : A -> M B) : M B :=
  fun k =>
    match m k with
    | Some (a, k') => f a k'
    | None => None
    end.

(** Undefined behaviour. *)
Definition undef {A} : M A := fun _ => None.

(** One allocation request. *)
Definition request (mem_ok : oracle) : M bool := fun k => Some (mem_ok k, S k).

End Mem.

Notation "'let*' x ':=' m 'in' f" := (Mem.bind m (fun x => f))
  (at level 10, x pattern, m at level 100, f at level 200).

(** ** The array that gets resized as needed *)

Module DynArray.
Import C Mem.

(** One [char *] cell of the backing buffer. *)
Inductive slot : Type :=
| Junk                 (* never written since the buffer was grown *)
| Null                 (* the NULL pointer *)
| Str (s : string).    (* a heap copy made by strdup *)

#[global] Instance slot_eq_dec : EqDecision slot.
Proof. solve_decision. Defined.

(** [struct dynamic_array]; [entries = None] is the NULL pointer. *)
Record dynamic_array : Type := mk_array {
  entries : option (list slot);
  len : Z;
  size : Z
}.

(** [struct dynamic_array a = { NULL }]. *)
Definition empty_array : dynamic_array :=
  {| entries := None; len := 0; size := 0 |}.

(** [strdup(s)]: a heap copy of the C string, or NULL. *)
Definition strdup (mem_ok : oracle) (s : string) : M (option string) :=
  let* ok := request mem_ok in
  ret (if ok : bool then Some (cstring s) else None).

(** The buffer after a successful [realloc] to [n] cells: the old cells
    are kept, new cells are uninitialised. *)
Definition resized (old : list slot) (n : nat) : list slot :=
  take n (old ++ replicate (n - length old) Junk).

(** [reallocarray(ptr, nmemb, size)]: fails without asking the allocator
    when [nmemb * size] overflows, else behaves as [realloc]. *)
Definition reallocarray (mem_ok : oracle) (ptr : option (list slot))
    (nmemb elsize : Z) : M (option (list slot)) :=
  if SIZE_MAX <? nmemb * elsize then ret None
  else
    let* ok := request mem_ok in
    ret (if ok : bool
         then Some (resized (default [] ptr) (Z.to_nat nmemb))
         else None).

(** [arr->entries[i] = v]. *)
Definition store (arr : dynamic_array) (i : Z) (v : slot) : M dynamic_array :=
  match entries arr with
  | Some buf =>
      if (0 <=? i) && (i <? Z.of_nat (length buf)) then
        ret {| entries := Some (<[Z.to_nat i := v]> buf);
               len := len arr; size := size arr |}
      else undef
  | None => undef
  end.

(** [push(arr, entry)]; the result pairs the returned [bool] with the
    array as the call leaves it. *)
Definition push (mem_ok : oracle) (arr : dynamic_array) (entry : option string)
    : M (bool * dynamic_array) :=
  let* copy := match entry with
               | Some e => strdup mem_ok e
               | None => ret None
               end in
  if bool_decide (entry <> None) && bool_decide (copy = None) then
    ret (false, arr)
  else
    let* grown :=
      if size arr <=? size_t (len arr + nonnull entry) then
        let* tmp := reallocarray mem_ok (entries arr)
                      (size_t (size arr + 128)) sizeof_ptr in
        match tmp with
        | None => ret None                      (* free(copy); return false *)
        | Some _ =>
            ret (Some {| entries := tmp; len := len arr;
                         size := size_t (size arr + 128) |})
        end
      else ret (Some arr) in
    match grown with
    | None => ret (false, arr)
    | Some arr1 =>
        let* arr2 :=
          match copy with
          | Some c =>
              let* a := store arr1 (len arr1) (Str c) in
              ret {| entries := entries a; len := size_t (len a + 1);
                     size := size a |}
          | None => ret arr1
          end in
        let* arr3 := store arr2 (len arr2) Null in
        ret (true, arr3)
    end.

(** What [free] was called on. *)
Inductive freed : Type :=
| FreeString (s : string)
| FreeVector.

(** [free_strvec(vec)]: frees the strings up to the first NULL; returns
    them in order.  Running off the buffer or onto an uninitialised cell
    is undefined. *)
Fixpoint free_strvec (vec : list slot) : option (list string) :=
  match vec with
  | [] => None
  | Null :: _ => Some []
  | Str s :: rest => cons s <$> free_strvec rest
  | Junk :: _ => None
  end.

(** [free_dynamic_array(arr)]: the calls to [free] it makes and the
    record after the [memset]. *)
Definition free_dynamic_array (arr : dynamic_array)
    : option (list freed * dynamic_array) :=
  match entries arr with
  | Some vec =>
      strs ← free_strvec vec;
      Some ((FreeString <$> strs) ++ [FreeVector], empty_array)
  | None => Some ([], empty_array)
  end.

End DynArray.

(** ** Standard output and standard error *)

Module Stdio.
Import C.

(** An output stream: what it has accepted so far, and how many more
    bytes it will accept before every write fails ([None]: no limit). *)
Record FILE : Type := mk_FILE {
  written : string;
  room : option nat
}.

Inductive stream : Type := stdout | stderr.

Record stdio : Type := mk_stdio {
  out : FILE;
  err : FILE;
  errno : Z
}.

Definition file_of (fp : stream) (w : stdio) : FILE :=
  match fp with stdout => out w | stderr => err w end.

Definition with_file (fp : stream) (f : FILE) (w : stdio) : stdio :=
  match fp with
  | stdout => {| out := f; err := err w; errno := errno w |}
  | stderr => {| out := out w; err := f; errno := errno w |}
  end.

(** The stream takes the longest prefix of [s] it has room for. *)
Definition accept (f : FILE) (s : string) : nat * FILE :=
  let n := match room f with
           | None => String.length s
           | Some r => Nat.min r (String.length s)
           end in
  (n, {| written := written f +:+ String.substring 0 n s;
         room := (fun r => (r - n)%nat) <$> room f |}).

Definition EINVAL : Z := 22.
Definition ENOSPC : Z := 28.
Definition EOVERFLOW : Z := 75.

Definition set_errno (e : Z) (w : stdio) : stdio :=
  {| out := out w; err := err w; errno := e |}.

(** What a write of [asked] bytes of which the stream took [got] leaves in
    [errno]: the error of the write that failed, when there was one; a
    stream out of room fails with [ENOSPC]. *)
Definition short (asked got : nat) (w : stdio) : stdio :=
  if (got <? asked)%nat then set_errno ENOSPC w else w.

(** [fwrite(s, 1, strlen(s), fp)]: the number of bytes written. *)
Definition fwrite (s : string) (fp : stream) (w : stdio) : Z * stdio :=
  let '(n, f) := accept (file_of fp w) s in
  (Z.of_nat n, short (String.length s) n (with_file fp f w)).

Definition EOF : Z := -1.

(** [fputc(c, fp)]: the byte written, or [EOF]. *)
Definition fputc (c : ascii) (fp : stream) (w : stdio) : Z * stdio :=
  let '(n, f) := accept (file_of fp w) (String c EmptyString) in
  (if (n =? 1)%nat then code c else EOF, short 1 n (with_file fp f w)).

Definition INT_MAX : Z := 2 ^ 31 - 1.

(** [vfprintf(fp, fmt, ap)] for the text [fmt] and [ap] expand to: the
    number of bytes transmitted, or a negative value, with [errno] set,
    on an output error or when that number is more than [INT_MAX]. *)
Definition vfprintf (fp : stream) (text : string) (w : stdio) : Z * stdio :=
  let '(n, f) := accept (file_of fp w) text in
  let w1 := short (String.length text) n (with_file fp f w) in
  if (n =? String.length text)%nat then
    if Z.of_nat n <=? INT_MAX then (Z.of_nat n, w1)
    else (-1, set_errno EOVERFLOW w1)
  else (-1, w1).

End Stdio.

(** ** The callbacks handed to the plugin *)

Module Conv.
Import C Stdio.

(** The message types of the plugin API.  Their header is not part of
    the sources at hand, so the values are parameters of the model. *)
Record conv_types : Type := mk_conv_types {
  SUDO_CONV_PROMPT_ECHO_OFF : Z;
  SUDO_CONV_PROMPT_ECHO_ON : Z;
  SUDO_CONV_ERROR_MSG : Z;
  SUDO_CONV_INFO_MSG : Z;
  SUDO_CONV_PROMPT_MASK : Z
}.

(** The labels of one [switch] are pairwise distinct, or the file does
    not compile. *)
Definition distinct_labels (T : conv_types) : Prop :=
  NoDup [SUDO_CONV_PROMPT_ECHO_OFF T; SUDO_CONV_PROMPT_ECHO_ON T;
         SUDO_CONV_ERROR_MSG T; SUDO_CONV_INFO_MSG T;
         SUDO_CONV_PROMPT_MASK T].

(** The values sudo_plugin.h gives them, for running the model. *)
Definition sudo_plugin_h : conv_types :=
  {| SUDO_CONV_PROMPT_ECHO_OFF := 1;
     SUDO_CONV_PROMPT_ECHO_ON := 2;
     SUDO_CONV_ERROR_MSG := 3;
     SUDO_CONV_INFO_MSG := 4;
     SUDO_CONV_PROMPT_MASK := 5 |}.

(** [struct sudo_conv_message]; [msg = None] is the NULL pointer. *)
Record sudo_conv_message : Type := mk_msg {
  msg_type : Z;
  msg : option string
}.

(** What one turn of the loop does next. *)
Inductive flow : Type :=
| Next                (* break out of the switch, n++ *)
| Return (r : Z).     (* return r *)

(** The body of the [for] loop of [fuzz_conversation] for [msgs[n]]. *)
Definition conv_message (T : conv_types) (m : sudo_conv_message) (w : stdio)
    : flow * stdio :=
  let t := Z.land (msg_type m) 255 in
  if (t =? SUDO_CONV_PROMPT_ECHO_ON T) || (t =? SUDO_CONV_PROMPT_MASK T)
     || (t =? SUDO_CONV_PROMPT_ECHO_OFF T) then
    (Return (-1), w)                                (* input not supported *)
  else if (t =? SUDO_CONV_ERROR_MSG T) || (t =? SUDO_CONV_INFO_MSG T) then
    let fp := if t =? SUDO_CONV_ERROR_MSG T then stderr else stdout in
    match msg m with
    | Some text =>
        if strlen text =? 0 then (Next, w)
        else
          let '(n, w1) := fwrite (cstring text) fp w in
          if n =? 0 then (Return (-1), w1)
          else
            let '(c, w2) := fputc LF fp w1 in
            if c =? EOF then (Return (-1), w2) else (Next, w2)
    | None => (Next, w)
    end
  else (Return (-1), w).

(** The loop [for (n = ...; n < num_msgs; n++)], with [todo] turns left
    to do.  Reading [msgs[n]] past the end of the array is undefined. *)
Fixpoint conv_loop (T : conv_types) (todo : nat) (n : nat)
    (msgs : list sudo_conv_message) (w : stdio) : option (Z * stdio) :=
  match todo with
  | O => Some (0, w)
  | S todo' =>
      match msgs !! n with
      | None => None
      | Some m =>
          match conv_message T m w with
          | (Next, w') => conv_loop T todo' (S n) msgs w'
          | (Return r, w') => Some (r, w')
          end
      end
  end.

(** [fuzz_conversation(num_msgs, msgs, replies, callback)]; the last two
    arguments are not used. *)
Definition fuzz_conversation (T : conv_types) (num_msgs : Z)
    (msgs : list sudo_conv_message) (w : stdio) : option (Z * stdio) :=
  conv_loop T (Z.to_nat num_msgs) 0 msgs w.

(** [fuzz_printf(msg_type, fmt, ...)]; [text] is what the format and its
    arguments expand to. *)
Definition fuzz_printf (T : conv_types) (msg_type : Z) (text : string)
    (w : stdio) : Z * stdio :=
  let t := Z.land msg_type 255 in
  if (t =? SUDO_CONV_ERROR_MSG T) || (t =? SUDO_CONV_INFO_MSG T) then
    let fp := if t =? SUDO_CONV_ERROR_MSG T then stderr else stdout in
    vfprintf fp text w
  else (-1, set_errno EINVAL w).

End Conv.

(** ** The fuzz target *)

Module Harness.
Import C Mem DynArray.

(** The five arrays of [LLVMFuzzerTestOneInput]. *)
Record collections : Type := mk_collections {
  plugin_args : dynamic_array;
  settings : dynamic_array;
  user_info : dynamic_array;
  argv : dynamic_array;
  env_add : dynamic_array
}.

Inductive category : Type :=
| PluginArgs | Settings | UserInfo | Argv | EnvAdd.

#[global] Instance category_eq_dec : EqDecision category.
Proof. solve_decision. Defined.

Definition get (k : category) (c : collections) : dynamic_array :=
  match k with
  | PluginArgs => plugin_args c
  | Settings => settings c
  | UserInfo => user_info c
  | Argv => argv c
  | EnvAdd => env_add c
  end.

Definition set (k : category) (a : dynamic_array) (c : collections) : collections :=
  match k with
  | PluginArgs => mk_collections a (settings c) (user_info c) (argv c) (env_add c)
  | Settings => mk_collections (plugin_args c) a (user_info c) (argv c) (env_add c)
  | UserInfo => mk_collections (plugin_args c) (settings c) a (argv c) (env_add c)
  | Argv => mk_collections (plugin_args c) (settings c) (user_info c) a (env_add c)
  | EnvAdd => mk_collections (plugin_args c) (settings c) (user_info c) (argv c) a
  end.

(** The statement [push(&k, entry);]: the returned [bool] is dropped. *)
Definition push_to (mem_ok : oracle) (k : category) (entry : option string)
    (c : collections) : M collections :=
  let* r := push mem_ok (get k c) entry in
  ret (set k (snd r) c).

(** [open_data(data, size)]: the stream of the unread bytes, or NULL when
    the platform could not set one up. *)
Definition open_data (stream_ok : bool) (data : string) : option string :=
  if stream_ok then Some data else None.

(** The bytes [getdelim] moves into the line buffer, up to and including
    the first [delim], and the bytes left in the stream. *)
Fixpoint read_record (delim : ascii) (fp : string) : string * string :=
  match fp with
  | EmptyString => (EmptyString, EmptyString)
  | String c rest =>
      if Ascii.eqb c delim then (String c EmptyString, rest)
      else let '(l, r) := read_record delim rest in (String c l, r)
  end.

(** [getdelim(&line, &linesize, delim, fp)]: [None] is the result -1 at
    end of file. *)
Definition getdelim (delim : ascii) (fp : string) : option (string * string) :=
  match fp with
  | EmptyString => None
  | _ => Some (read_record delim fp)
  end.

(** [if (line[linelen - 1] == '\n') line[linelen - 1] = '\0';] *)
Fixpoint chomp (line : string) : string :=
  match line with
  | EmptyString => EmptyString
  | String c EmptyString =>
      if Ascii.eqb c LF then EmptyString else String c EmptyString
  | String c rest => String c (chomp rest)
  end.

(** [strncmp(line, key, sizeof(key) - 1) == 0] *)
Definition has_key (line key : string) : bool :=
  strncmp line key (sizeof_lit key) =? 0.

(** The body of the [while] loop after the newline is cut off. *)
Definition classify (mem_ok : oracle) (line : string) (c : collections)
    : M collections :=
  (* Skip comments and blank lines. *)
  if Ascii.eqb (first_byte line) "#" || Ascii.eqb (first_byte line) NUL then ret c
  (* plugin args *)
  else if has_key line "error_recovery=" then push_to mem_ok PluginArgs (Some line) c
  else if has_key line "sudoers_file=" then push_to mem_ok PluginArgs (Some line) c
  else if has_key line "sudoers_mode=" then push_to mem_ok PluginArgs (Some line) c
  else if has_key line "sudoers_gid=" then push_to mem_ok PluginArgs (Some line) c
  else if has_key line "sudoers_uid=" then push_to mem_ok PluginArgs (Some line) c
  else if has_key line "ldap_conf=" then push_to mem_ok PluginArgs (Some line) c
  else if has_key line "ldap_secret=" then push_to mem_ok PluginArgs (Some line) c
  (* user info *)
  else if has_key line "user=" then push_to mem_ok UserInfo (Some line) c
  else if has_key line "uid=" then push_to mem_ok UserInfo (Some line) c
  else if has_key line "gid=" then push_to mem_ok UserInfo (Some line) c
  else if has_key line "groups=" then push_to mem_ok UserInfo (Some line) c
  else if has_key line "cwd=" then push_to mem_ok UserInfo (Some line) c
  else if has_key line "tty=" then push_to mem_ok UserInfo (Some line) c
  else if has_key line "host=" then push_to mem_ok UserInfo (Some line) c
  else if has_key line "lines=" then push_to mem_ok UserInfo (Some line) c
  else if has_key line "cols=" then push_to mem_ok UserInfo (Some line) c
  else if has_key line "sid=" then push_to mem_ok UserInfo (Some line) c
  else if has_key line "umask=" then push_to mem_ok UserInfo (Some line) c
  else if has_key line "rlimit_" then push_to mem_ok UserInfo (Some line) c
  (* First argv entry is the command, the rest are args. *)
  else if has_key line "argv=" then push_to mem_ok Argv (Some line) c
  else if has_key line "env=" then push_to mem_ok EnvAdd (Some line) c
  (* Treat anything else as a setting. *)
  else push_to mem_ok Settings (Some line) c.

Definition inspect {A} (a : A) : {b : A | a = b} := exist _ a eq_refl.

Lemma read_record_shorter delim fp line rest :
  getdelim delim fp = Some (line, rest) ->
  (String.length rest < String.length fp)%nat.
Proof.
  unfold getdelim. destruct fp as [|c fp]; [discriminate|].
  intros [= H]. revert c line rest H.
  induction fp as [|d fp IH]; intros c line rest; simpl.
  - destruct (Ascii.eqb c delim); intros [= <- <-]; simpl; lia.
  - destruct (Ascii.eqb c delim); [intros [= <- <-]; simpl; lia|].
    destruct (Ascii.eqb d delim) eqn:E.
    + intros [= <- <-]. simpl. lia.
    + specialize (IH d). simpl in IH. rewrite E in IH.
      destruct (read_record delim fp) as [l r].
      intros [= <- <-]. specialize (IH _ _ eq_refl). simpl. lia.
Qed.

(** [while ((linelen = getdelim(&line, &linesize, '\n', fp)) != -1) ...] *)
Equations classify_all (mem_ok : oracle) (fp : string) (c : collections)
    : M collections by wf (String.length fp) lt :=
  classify_all mem_ok fp c with inspect (getdelim LF fp) := {
    | exist _ None _ => ret c
    | exist _ (Some (line, rest)) E =>
        let* c' := classify mem_ok (chomp line) c in
        classify_all mem_ok rest c' }.
Next Obligation. eapply read_record_shorter; eassumption. Qed.

(** What the harness needs to know of [sudoers_policy]: the result of
    its [open] for the three vectors built from the input (settings,
    user_info, plugin_args; the API version, the two callbacks and
    [environ] are the same in every run), and whether [close] is set. *)
Record policy_plugin : Type := mk_plugin {
  policy_open :
    option (list slot) -> option (list slot) -> option (list slot) -> Z;
  policy_close : bool
}.

(** The calls the harness makes, in order. *)
Inductive event : Type :=
| Open (settings user_info plugin_args : option (list slot))
| CheckPolicy (argc : Z) (argv env_add : option (list slot))
| Close (exit_status error : Z)
| ResetUser      (* the cleanup of sudo_user, then env_init(NULL) *)
| Free (f : freed).

(** [if (sudoers_policy.close != NULL) sudoers_policy.close(0, 0);] *)
Definition close_call (P : policy_plugin) : list event :=
  if policy_close P then [Close 0 0] else [].

Definition start : collections :=
  mk_collections empty_array empty_array empty_array empty_array empty_array.

(** From the two initial pushes to the end of the [while] loop. *)
Definition build (mem_ok : oracle) (fp : string) : M collections :=
  (* user_info and settings must be non-NULL (even if empty). *)
  let* c := push_to mem_ok UserInfo None start in
  let* c := push_to mem_ok Settings None c in
  classify_all mem_ok fp c.

(** From the call of the policy open function to the label [done]. *)
Definition drive (mem_ok : oracle) (P : policy_plugin) (c : collections)
    : M (collections * list event) :=
  let res := policy_open P (entries (settings c)) (entries (user_info c))
               (entries (plugin_args c)) in
  let opened := Open (entries (settings c)) (entries (user_info c))
                  (entries (plugin_args c)) in
  if res =? 0 then
    (* failure *)
    ret (c, opened :: close_call P)
  else if res =? 1 then
    (* success *)
    let* c1 := if len (argv c) =? 0
               then push_to mem_ok Argv (Some "/usr/bin/id") c
               else ret c in
    ret (c1, opened
             :: CheckPolicy (int (len (argv c1))) (entries (argv c1))
                  (entries (env_add c1))
             :: close_call P)
  else
    (* fatal or usage error *)
    ret (c, [opened]).

(** The cleanup after [done]. *)
Definition cleanup (c : collections) : option (list event) :=
  f1 ← free_dynamic_array (plugin_args c);
  f2 ← free_dynamic_array (settings c);
  f3 ← free_dynamic_array (user_info c);
  f4 ← free_dynamic_array (argv c);
  f5 ← free_dynamic_array (env_add c);
  Some (ResetUser :: (Free <$> (f1.1 ++ f2.1 ++ f3.1 ++ f4.1 ++ f5.1))).

Definition iteration (mem_ok : oracle) (P : policy_plugin) (fp : string)
    : M (list event) :=
  let* c := build mem_ok fp in
  let* r := drive mem_ok P c in
  match cleanup (fst r) with
  | Some frees => ret (snd r ++ frees)
  | None => undef
  end.

(** [LLVMFuzzerTestOneInput(data, size)]: the value returned and the
    calls made. *)
Definition LLVMFuzzerTestOneInput (mem_ok : oracle) (stream_ok : bool)
    (P : policy_plugin) (data : string) : option (Z * list event) :=
  match open_data stream_ok data with
  | None => Some (0, [])
  | Some fp =>
      r ← iteration mem_ok P fp 0%nat;
      Some (0, r.1)
  end.

End Harness.


(** ** Invariants of the model, used to state the results *)

Module Inv.
Import C Mem DynArray Harness.

(** The array holds the strings [l] in its first cells, a NULL in the
    cell after them, and fits in the address space. *)
Definition terminated (arr : dynamic_array) (l : list string) : Prop :=
  exists rest : list slot,
    entries arr = Some ((Str <$> l) ++ Null :: rest)
    /\ len arr = Z.of_nat (length l)
    /\ size arr = Z.of_nat (length l + 1 + length rest)
    /\ size arr * sizeof_ptr <= SIZE_MAX.

(** An array as the harness can hold it: as initialised, or terminated. *)
Definition valid (arr : dynamic_array) (l : list string) : Prop :=
  (arr = empty_array /\ l = []) \/ terminated arr l.

(** The copy a push appends. *)
Definition copied (entry : option string) : list string :=
  match entry with
  | Some e => [cstring e]
  | None => []
  end.

(** Pushing the entries [es] one after the other; the results of the
    calls come back in order. *)
Fixpoint push_seq (mem_ok : oracle) (arr : dynamic_array)
    (es : list (option string)) : M (list bool * dynamic_array) :=
  match es with
  | [] => ret ([], arr)
  | e :: es' =>
      let* r := push mem_ok arr e in
      let* rs := push_seq mem_ok (snd r) es' in
      ret (fst r :: fst rs, snd rs)
  end.

(** The strings appended by the pushes of [es] that returned [true]. *)
Fixpoint kept (es : list (option string)) (rs : list bool) : list string :=
  match es, rs with
  | e :: es', true :: rs' => copied e ++ kept es' rs'
  | _ :: es', false :: rs' => kept es' rs'
  | _, _ => []
  end.

(** Every one of the five arrays is valid. *)
Definition all_valid (c : collections) : Prop :=
  forall cat : category, exists l : list string, valid (get cat c) l.

(** The records the [while] loop sees, newline cut off. *)
Equations records (fp : string) : list string by wf (String.length fp) lt :=
  records fp with inspect (getdelim LF fp) := {
    | exist _ None _ => []
    | exist _ (Some (line, rest)) E => chomp line :: records rest }.
Next Obligation. eapply read_record_shorter; eassumption. Qed.

(** The keys the loop tests a line for. *)
Definition keys : list string :=
  ["error_recovery="; "sudoers_file="; "sudoers_mode="; "sudoers_gid=";
   "sudoers_uid="; "ldap_conf="; "ldap_secret=";
   "user="; "uid="; "gid="; "groups="; "cwd="; "tty="; "host="; "lines=";
   "cols="; "sid="; "umask="; "rlimit_";
   "argv="; "env="]%string.

(** The same keys, each with the array its lines go to. *)
Definition table : list (string * category) :=
  [("error_recovery=", PluginArgs); ("sudoers_file=", PluginArgs);
   ("sudoers_mode=", PluginArgs); ("sudoers_gid=", PluginArgs);
   ("sudoers_uid=", PluginArgs); ("ldap_conf=", PluginArgs);
   ("ldap_secret=", PluginArgs);
   ("user=", UserInfo); ("uid=", UserInfo); ("gid=", UserInfo);
   ("groups=", UserInfo); ("cwd=", UserInfo); ("tty=", UserInfo);
   ("host=", UserInfo); ("lines=", UserInfo); ("cols=", UserInfo);
   ("sid=", UserInfo); ("umask=", UserInfo); ("rlimit_", UserInfo);
   ("argv=", Argv); ("env=", EnvAdd)]%string.

(** No NUL byte in a string literal. *)
Fixpoint nul_free (s : string) : bool :=
  match s with
  | EmptyString => true
  | String c r => negb (Ascii.eqb c NUL) && nul_free r
  end.


(** The arguments of the calls of each kind, in order. *)
Definition opens (tr : list event)
    : list (option (list slot) * option (list slot) * option (list slot)) :=
  omap (fun ev => match ev with Open s u p => Some (s, u, p) | _ => None end) tr.

Definition checks (tr : list event)
    : list (Z * option (list slot) * option (list slot)) :=
  omap (fun ev => match ev with CheckPolicy n a e => Some (n, a, e) | _ => None end) tr.

Definition closes (tr : list event) : list (Z * Z) :=
  omap (fun ev => match ev with Close x y => Some (x, y) | _ => None end) tr.

(** [I] is an invariant of the loop body for the lines satisfying [P],
    and the body is defined there. *)
Definition step_inv (mem_ok : oracle) (I : collections -> Prop)
    (P : string -> Prop) : Prop :=
  forall line c k, P line -> I c ->
    exists c' k',
      classify mem_ok line c k = Some (c', k') /\ (k <= k')%nat /\ I c'.

(** A newline, for writing inputs down. *)
Definition nl : string := String LF EmptyString.


(** *** The conversation callback *)

Import Stdio Conv.

(** The type of a message once the flag bits are masked off. *)
Definition is_prompt (T : conv_types) (m : sudo_conv_message) : bool :=
  let t := Z.land (msg_type m) 255 in
  (t =? SUDO_CONV_PROMPT_ECHO_ON T) || (t =? SUDO_CONV_PROMPT_MASK T)
  || (t =? SUDO_CONV_PROMPT_ECHO_OFF T).

Definition is_error (T : conv_types) (m : sudo_conv_message) : bool :=
  Z.land (msg_type m) 255 =? SUDO_CONV_ERROR_MSG T.

Definition is_info (T : conv_types) (m : sudo_conv_message) : bool :=
  Z.land (msg_type m) 255 =? SUDO_CONV_INFO_MSG T.

(** What a message contributes to its stream: its text and a newline, or
    nothing when the text is NULL or empty. *)
Definition relayed (m : sudo_conv_message) : string :=
  match msg m with
  | Some text =>
      match cstring text with
      | EmptyString => EmptyString
      | s => s +:+ String LF EmptyString
      end
  | None => EmptyString
  end.

(** The contributions of the messages selected by [sel], in order. *)
Fixpoint printed (sel : sudo_conv_message -> bool)
    (msgs : list sudo_conv_message) : string :=
  match msgs with
  | [] => EmptyString
  | m :: rest =>
      (if sel m then relayed m else EmptyString) +:+ printed sel rest
  end.

(** No limit on what the two streams accept. *)
Definition unlimited (w : stdio) : Prop :=
  room (out w) = None /\ room (err w) = None.

(** The loop of [fuzz_conversation] over the messages still to do. *)
Fixpoint conv_list (T : conv_types) (msgs : list sudo_conv_message)
    (w : stdio) : Z * stdio :=
  match msgs with
  | [] => (0, w)
  | m :: rest =>
      match conv_message T m w with
      | (Next, w') => conv_list T rest w'
      | (Return r, w') => (r, w')
      end
  end.

(** Both streams empty and without limit, [errno] clear. *)
Definition quiet : stdio :=
  {| out := mk_FILE EmptyString None; err := mk_FILE EmptyString None;
     errno := 0 |}.

(** Two messages with the same text whose types agree modulo 256. *)
Definition same_low_byte (m1 m2 : sudo_conv_message) : Prop :=
  msg m1 = msg m2 /\ msg_type m1 mod 256 = msg_type m2 mod 256.

End Inv.

(** ** More of the harness: what the loop does with a whole input *)

Module Plan.
Import C Mem DynArray Harness Inv.

(** The array the loop body pushes a line to; [None] for a line it skips. *)
Definition route (line : string) : option category :=
  if Ascii.eqb (first_byte line) "#" || Ascii.eqb (first_byte line) NUL then None
  else Some (default Settings (snd <$> List.find (fun kc => has_key line kc.1) table)).

(** The copies of the lines of [ls] that go to the array [cat], in order. *)
Definition routed (cat : category) (ls : list string) : list string :=
  cstring <$> filter (fun l => route l = Some cat) ls.

(** The loop body over a list of records. *)
Fixpoint classify_lines (mem_ok : oracle) (ls : list string) (c : collections)
    : M collections :=
  match ls with
  | [] => ret c
  | l :: ls' =>
      let* c' := classify mem_ok l c in
      classify_lines mem_ok ls' c'
  end.

(** One of two keys is the start of the other. *)
Definition clash (k1 k2 : string) : bool :=
  String.prefix k1 k2 || String.prefix k2 k1.

(** The capacity is the least multiple of 128 above the length. *)
Definition tight (arr : dynamic_array) : Prop :=
  size arr = 128 * (len arr / 128 + 1).

(** The arrays hold the strings [L] gives for them, capacities tight. *)
Definition holds (c : collections) (L : category -> list string) : Prop :=
  forall cat, valid (get cat c) (L cat)
              /\ (get cat c = empty_array \/ tight (get cat c)).


(** No newline in a record. *)
Fixpoint lf_free (s : string) : bool :=
  match s with
  | EmptyString => true
  | String c r => negb (Ascii.eqb c LF) && lf_free r
  end.

(** The input that holds the records [ls], each closed by a newline. *)
Fixpoint unlines (ls : list string) : string :=
  match ls with
  | [] => EmptyString
  | l :: ls' => l +:+ String LF (unlines ls')
  end.

(** The vector a consumer of [entries] reads: the strings before the first
    NULL; [None] when there is no vector or no NULL in it. *)
Definition strvec (p : option (list slot)) : option (list string) :=
  vec ← p; free_strvec vec.

(** The command line [check_policy] gets: the argv records, or the
    default command when there are none. *)
Definition command_line (recs : list string) : list string :=
  match routed Argv recs with
  | [] => ["/usr/bin/id"%string]
  | ls => ls
  end.

(** A vector built from the records of one array: NULL when the array may
    stay NULL and has no record, else the copies of its records. *)
Definition vector_of (cat : category) (recs : list string)
    (p : option (list slot)) : Prop :=
  match routed cat recs with
  | [] => if bool_decide (cat = UserInfo \/ cat = Settings)
          then strvec p = Some [] else p = None
  | ls => strvec p = Some ls
  end.


End Plan.

(** ** The stubs that do some work *)

Module Stubs.
Import C Mem DynArray.

(** The two results of [find_path] the stub can give; their values come
    from a header that is not among the sources. *)
Record path_codes : Type := mk_path_codes {
  FOUND : Z;
  NOT_FOUND : Z
}.

(** [asprintf(outfile, "/usr/bin/%s", infile)]: the length and the string,
    or -1 and no string when the allocation is refused or the length is
    more than an [int] holds. *)
Definition asprintf_usr_bin (mem_ok : oracle) (infile : string)
    : M (Z * option string) :=
  let text := "/usr/bin/" +:+ cstring infile in
  let* ok := request mem_ok in
  ret (if (ok : bool) && (Z.of_nat (String.length text) <=? 2 ^ 31 - 1)
       then (Z.of_nat (String.length text), Some text)
       else (-1, None)).

(** [find_path(infile, outfile, sbp, path, runchroot, ignore_dot,
    allowlist)]: the value returned and [*outfile]; the last five
    arguments are not used. *)
Definition find_path (R : path_codes) (mem_ok : oracle) (infile : string)
    : M (Z * option string) :=
  let* outfile :=
    if Ascii.eqb (first_byte infile) "/" then strdup mem_ok infile
    else
      let* r := asprintf_usr_bin mem_ok infile in
      ret (if fst r =? -1 then None else snd r) in
  ret (match outfile with Some _ => FOUND R | None => NOT_FOUND R end, outfile).

(** [strlcpy(dst, src, dsize)]: the length of [src], and the C string left
    in [dst] ([None]: [dst] is not written, as [dsize] is 0). *)
Definition strlcpy (src : string) (dsize : Z) : Z * option string :=
  (strlen src,
   if dsize =? 0 then None
   else Some (String.substring 0 (Z.to_nat (dsize - 1)) (cstring src))).

(** [expand_iolog_path(inpath, path, pathlen, escapes, closure)]: the
    [bool] returned and the C string left in [path]. *)
Definition expand_iolog_path (inpath : string) (pathlen : Z)
    : bool * option string :=
  let r := strlcpy inpath pathlen in
  (fst r <? pathlen, snd r).

(** The one back end the list of [sudo_read_nss] can hold. *)
Inductive nss : Type := sudo_nss_file.

(** [sudo_read_nss()]: the static list [snl] after the call, which is
    what the pointer returned points to. *)
Definition sudo_read_nss (snl : list nss) : list nss :=
  match snl with
  | [] => snl ++ [sudo_nss_file]        (* TAILQ_INSERT_TAIL *)
  | _ => snl
  end.

End Stubs.

(** * Results *)

Import C Mem DynArray Stdio Conv Harness Inv.

(** ** What a push does to a valid array *)

Lemma size_t_small z : 0 <= z < 2 ^ 64 -> size_t z = z.
Proof. intros. unfold size_t. apply Z.mod_small. lia. Qed.

Lemma store_at arr pre x post v i k :
  entries arr = Some (pre ++ x :: post) ->
  i = Z.of_nat (length pre) ->
  store arr i v k
  = Some ({| entries := Some (pre ++ v :: post); len := len arr; size := size arr |}, k).
Proof.
  intros He ->. unfold store. rewrite He.
  rewrite length_app, length_cons.
  destruct (_ && _) eqn:E.
  - rewrite Nat2Z.id.
    replace (length pre) with (length pre + 0)%nat at 1 by lia.
    rewrite insert_app_r. reflexivity.
  - apply andb_false_iff in E as [E%Z.leb_nle | E%Z.ltb_nlt]; lia.
Qed.

Lemma resized_grow old n :
  (length old <= n)%nat -> resized old n = old ++ replicate (n - length old) Junk.
Proof.
  intros H. unfold resized. apply take_ge.
  rewrite length_app, length_replicate. lia.
Qed.

Lemma store_fields arr i v k a k' :
  store arr i v k = Some (a, k') -> len a = len arr /\ size a = size arr /\ k' = k.
Proof.
  unfold store, ret, undef. destruct (entries arr); [|discriminate].
  destruct (_ && _); [|discriminate]. by intros [= <- <-].
Qed.

(** The fields of the record after a push that returned [true]. *)
Lemma push_true_fields mem_ok arr e k arr' k' :
  push mem_ok arr e k = Some ((true, arr'), k') ->
  len arr' = match e with Some _ => size_t (len arr + 1) | None => len arr end
  /\ size arr' = if size arr <=? size_t (len arr + nonnull e)
                 then size_t (size arr + 128) else size arr.
Proof.
  destruct e as [e|];
    cbv beta iota zeta delta [push bind strdup reallocarray request ret nonnull].
  - destruct (mem_ok k); cbv beta iota zeta.
    2:{ rewrite !bool_decide_eq_true_2 by done. discriminate. }
    rewrite (bool_decide_eq_false_2 (Some (cstring e) = None)) by discriminate.
    rewrite andb_false_r.
    destruct (size arr <=? size_t (len arr + 1)); cbv beta iota zeta.
    + destruct (SIZE_MAX <? size_t (size arr + 128) * sizeof_ptr); cbv beta iota zeta;
        [discriminate|].
      destruct (mem_ok (S k)); cbv beta iota zeta; [|discriminate].
      destruct (store _ _ _ _) as [[a1 k1]|] eqn:E1; cbv beta iota zeta; [|discriminate].
      destruct (store _ _ Null _) as [[a2 k2]|] eqn:E2; cbv beta iota zeta; [|discriminate].
      intros [= <- <-].
      apply store_fields in E1 as (L1 & S1 & _). apply store_fields in E2 as (L2 & S2 & _).
      cbn in *. split; congruence.
    + destruct (store _ _ _ _) as [[a1 k1]|] eqn:E1; cbv beta iota zeta; [|discriminate].
      destruct (store _ _ Null _) as [[a2 k2]|] eqn:E2; cbv beta iota zeta; [|discriminate].
      intros [= <- <-].
      apply store_fields in E1 as (L1 & S1 & _). apply store_fields in E2 as (L2 & S2 & _).
      cbn in *. split; congruence.
  - rewrite (bool_decide_eq_false_2 (None ≠ None)) by congruence.
    cbn [andb]. rewrite Z.add_0_r.
    destruct (size arr <=? size_t (len arr)); cbv beta iota zeta.
    + destruct (SIZE_MAX <? size_t (size arr + 128) * sizeof_ptr); cbv beta iota zeta;
        [discriminate|].
      destruct (mem_ok k); cbv beta iota zeta; [|discriminate].
      destruct (store _ _ _ _) as [[a1 k1]|] eqn:E1; cbv beta iota zeta; [|discriminate].
      intros [= <- <-]. apply store_fields in E1 as (L1 & S1 & _). cbn in *. by split.
    + destruct (store _ _ _ _) as [[a1 k1]|] eqn:E1; cbv beta iota zeta; [|discriminate].
      intros [= <- <-]. apply store_fields in E1 as (L1 & S1 & _). by split.
Qed.


Section PushLemmas.
Variable mem_ok : oracle.

Lemma push_empty e k :
  exists b arr' k',
    push mem_ok empty_array e k = Some ((b, arr'), k')
    /\ (k <= k' <= k + 2)%nat
    /\ (if b : bool then terminated arr' (copied e)
        else arr' = empty_array
             /\ exists j, (k <= j < k')%nat /\ mem_ok j = false).
Proof.
  destruct e as [e|]; unfold push, bind, strdup, request, ret; simpl.
  - destruct (mem_ok k) eqn:E1; simpl; [destruct (mem_ok (S k)) eqn:E2; simpl|].
    + eexists true, _, _. split; [reflexivity|]. split; [lia|].
      exists (replicate 126 Junk). vm_compute. repeat split; congruence.
    + eexists false, _, _. split; [reflexivity|]. split; [lia|].
      split; [reflexivity|]. exists (S k). split; [lia|assumption].
    + eexists false, _, _. split; [reflexivity|]. split; [lia|].
      split; [reflexivity|]. exists k. split; [lia|assumption].
  - destruct (mem_ok k) eqn:E1; simpl.
    + eexists true, _, _. split; [reflexivity|]. split; [lia|].
      exists (replicate 127 Junk). vm_compute. repeat split; congruence.
    + eexists false, _, _. split; [reflexivity|]. split; [lia|].
      split; [reflexivity|]. exists k. split; [lia|assumption].
Qed.

Lemma nil_length_0 (rest : list slot) : length rest = 0%nat -> rest = [].
Proof. destruct rest; [reflexivity | discriminate]. Qed.

Lemma push_terminated arr l e k :
  terminated arr l ->
  exists b arr' k',
    push mem_ok arr e k = Some ((b, arr'), k')
    /\ (k <= k' <= k + 2)%nat
    /\ (if b : bool then terminated arr' (l ++ copied e)
        else arr' = arr
             /\ ((exists j, (k <= j < k')%nat /\ mem_ok j = false)
                 \/ SIZE_MAX < (size arr + 128) * sizeof_ptr)).
Proof.
  intros (rest & He & Hl & Hs & Hb).
  unfold sizeof_ptr, SIZE_MAX in Hb.
  destruct e as [e|]; unfold push.
  - unfold bind at 1. unfold strdup, bind at 1, request, ret at 1.
    destruct (mem_ok k) eqn:E1.
    2:{ eexists false, _, _. simpl. split; [reflexivity|]. split; [lia|].
        split; [reflexivity|]. left. exists k. split; [lia|assumption]. }
    rewrite (bool_decide_eq_false_2 (Some (cstring e) = None)) by discriminate.
    rewrite andb_false_r. cbn [nonnull].
    rewrite (size_t_small (len arr + 1)) by lia.
    destruct (Z.leb_spec (size arr) (len arr + 1)) as [Hg|Hg].
    + (* the buffer is full: grow *)
      assert (rest = []) as -> by (apply nil_length_0; lia).
      cbn [length] in Hs.
      rewrite (size_t_small (size arr + 128)) by lia.
      unfold reallocarray, sizeof_ptr, SIZE_MAX.
      destruct (Z.ltb_spec (2 ^ 64 - 1) ((size arr + 128) * 8)) as [Ho|Ho].
      { eexists false, _, _. cbn. split; [reflexivity|]. split; [lia|].
        split; [reflexivity|]. right. unfold sizeof_ptr, SIZE_MAX. lia. }
      unfold bind, request, ret. destruct (mem_ok (S k)) eqn:E2.
      2:{ eexists false, _, _. split; [reflexivity|]. split; [lia|].
          split; [reflexivity|]. left. exists (S k). split; [lia|assumption]. }
      rewrite He. cbn [default entries len size].
      unfold id. rewrite resized_grow by (rewrite length_app, length_fmap; simpl; lia).
      replace (Z.to_nat (size arr + 128) - length ((Str <$> l) ++ [Null]))%nat
        with 128%nat by (rewrite length_app, length_fmap; simpl; lia).
      change (replicate 128 Junk) with (Junk :: replicate 127 Junk).
      rewrite <- (assoc_L (++)). cbn [app].
      erewrite (store_at _ (Str <$> l) Null) by (cbn [entries]; first [reflexivity | rewrite length_fmap; lia]).
      cbn [entries len size].
      rewrite (size_t_small (len arr + 1)) by lia.
      erewrite (store_at _ ((Str <$> l) ++ [Str (cstring e)]) Junk).
      2:{ cbn [entries]. rewrite <- (assoc_L (++)). reflexivity. }
      2:{ rewrite length_app, length_fmap. simpl. lia. }
      cbn [entries len size].
      eexists true, _, _. split; [reflexivity|]. split; [lia|].
      exists (replicate 127 Junk). cbn [entries len size copied].
      rewrite fmap_app, length_app, length_replicate. cbn [fmap list_fmap length].
      split; [by rewrite <- (assoc_L (++))|].
      split; [lia|]. split; [lia|]. unfold sizeof_ptr, SIZE_MAX. lia.
    + (* room for the copy and the terminator *)
      destruct rest as [|x rest]; [simpl in Hs; lia|].
      unfold bind, ret.
      erewrite (store_at _ (Str <$> l) Null) by (first [eassumption | rewrite length_fmap; lia]).
      cbn [entries len size].
      rewrite (size_t_small (len arr + 1)) by lia.
      erewrite (store_at _ ((Str <$> l) ++ [Str (cstring e)]) x).
      2:{ cbn [entries]. rewrite <- (assoc_L (++)). reflexivity. }
      2:{ rewrite length_app, length_fmap. simpl. lia. }
      cbn [entries len size].
      eexists true, _, _. split; [reflexivity|]. split; [lia|].
      exists rest. cbn [entries len size copied].
      rewrite fmap_app, length_app. cbn [fmap list_fmap length] in *.
      split; [by rewrite <- (assoc_L (++))|].
      split; [lia|]. split; [lia|]. unfold sizeof_ptr, SIZE_MAX. lia.
  - unfold bind at 1. unfold ret at 1.
    cbn [bool_decide andb nonnull].
    rewrite (bool_decide_eq_false_2 (None ≠ None)) by congruence.
    cbn [andb]. rewrite Z.add_0_r, (size_t_small (len arr)) by lia.
    destruct (Z.leb_spec (size arr) (len arr)) as [Hg|Hg]; [lia|].
    unfold bind, ret.
    erewrite (store_at _ (Str <$> l) Null) by (first [eassumption | rewrite length_fmap; lia]).
    eexists true, _, _. split; [reflexivity|]. split; [lia|].
    exists rest. cbn [entries len size copied]. rewrite app_nil_r.
    repeat split; try lia. unfold sizeof_ptr, SIZE_MAX. lia.
Qed.

(** What a call of [push] on a valid array does. *)
Lemma push_valid arr l e k :
  valid arr l ->
  exists b arr' k',
    push mem_ok arr e k = Some ((b, arr'), k')
    /\ (k <= k' <= k + 2)%nat
    /\ (if b : bool then terminated arr' (l ++ copied e)
        else arr' = arr
             /\ ((exists j, (k <= j < k')%nat /\ mem_ok j = false)
                 \/ SIZE_MAX < (size arr + 128) * sizeof_ptr)).
Proof.
  intros [[-> ->] | H]; [|by apply push_terminated].
  destruct (push_empty e k) as (b & arr' & k' & Hp & Hk & Hb).
  exists b, arr', k'. split; [assumption|]. split; [assumption|].
  destruct b; [assumption|]. destruct Hb as [-> Hj]. auto.
Qed.

Lemma terminated_nonnull arr l : terminated arr l -> entries arr <> None.
Proof. intros (rest & He & _). rewrite He. discriminate. Qed.

Lemma terminated_valid arr l : terminated arr l -> valid arr l.
Proof. by right. Qed.

(** The array after a push is valid, and stays non-NULL if it was. *)
Lemma push_keeps_valid arr l e k :
  valid arr l ->
  exists b arr' k' l',
    push mem_ok arr e k = Some ((b, arr'), k')
    /\ (k <= k')%nat
    /\ valid arr' l'
    /\ (entries arr <> None -> entries arr' <> None).
Proof.
  intros Hv. destruct (push_valid arr l e k Hv) as (b & arr' & k' & Hp & Hk & Hb).
  destruct b.
  - exists true, arr', k', (l ++ copied e). repeat split; try assumption; try lia.
    + by right.
    + intros _. by eapply terminated_nonnull.
  - destruct Hb as [-> _]. exists false, arr, k', l.
    repeat split; try assumption; first [lia | auto].
Qed.
End PushLemmas.

(** ** The loop over the records *)

Lemma classify_all_unfold mem_ok fp c :
  classify_all mem_ok fp c
  = match getdelim LF fp with
    | None => ret c
    | Some (line, rest) =>
        let* c' := classify mem_ok (chomp line) c in
        classify_all mem_ok rest c'
    end.
Proof.
  funelim (classify_all mem_ok fp c);
    match goal with H : getdelim _ _ = _ |- _ => rewrite H end; reflexivity.
Qed.

Lemma records_unfold fp :
  records fp
  = match getdelim LF fp with
    | None => []
    | Some (line, rest) => chomp line :: records rest
    end.
Proof.
  funelim (records fp);
    match goal with H : getdelim _ _ = _ |- _ => rewrite H end; reflexivity.
Qed.

Lemma get_set_eq cat a c : get cat (set cat a c) = a.
Proof. by destruct cat. Qed.

Lemma get_set_ne cat cat' a c : cat' <> cat -> get cat' (set cat a c) = get cat' c.
Proof. by destruct cat, cat'. Qed.

Section HarnessLemmas.
Variable mem_ok : oracle.

Lemma push_to_spec cat e c k :
  all_valid c ->
  exists c' k',
    push_to mem_ok cat e c k = Some (c', k')
    /\ (k <= k')%nat
    /\ all_valid c'
    /\ (forall cat', entries (get cat' c) <> None -> entries (get cat' c') <> None)
    /\ (forall cat', cat' <> cat -> get cat' c' = get cat' c).
Proof.
  intros Hv. destruct (Hv cat) as [l Hl].
  destruct (push_keeps_valid mem_ok _ l e k Hl) as (b & arr' & k' & l' & Hp & Hk & Hv' & Hn).
  exists (set cat arr' c), k'. unfold push_to, bind, ret. rewrite Hp. cbn [snd].
  split; [reflexivity|]. split; [assumption|]. split; [|split].
  - intros cat'. destruct (decide (cat' = cat)) as [->|Hne].
    + rewrite get_set_eq. eauto.
    + rewrite get_set_ne by assumption. apply Hv.
  - intros cat'. destruct (decide (cat' = cat)) as [->|Hne].
    + rewrite get_set_eq. assumption.
    + by rewrite get_set_ne.
  - intros cat' Hne. by apply get_set_ne.
Qed.

(** A line is skipped or pushed to one array; to argv only under its key. *)
Lemma classify_cases line c :
  classify mem_ok line c = ret c
  \/ exists cat,
       classify mem_ok line c = push_to mem_ok cat (Some line) c
       /\ (cat = Argv -> has_key line "argv=" = true).
Proof.
  unfold classify.
  destruct (_ || _); [by left|]. right.
  destruct (has_key line "argv=") eqn:EA.
  - repeat match goal with
    | |- context [if has_key line ?k then _ else _] =>
        destruct (has_key line k);
        [eexists; split; [reflexivity | discriminate]|]
    end.
    eexists; split; [reflexivity | reflexivity].
  - repeat match goal with
    | |- context [if has_key line ?k then _ else _] =>
        destruct (has_key line k);
        [eexists; split; [reflexivity | discriminate]|]
    end.
    eexists; split; [reflexivity | discriminate].
Qed.

Lemma classify_all_inv (I : collections -> Prop) (P : string -> Prop) :
  step_inv mem_ok I P ->
  forall fp c k, Forall P (records fp) -> I c ->
    exists c' k', classify_all mem_ok fp c k = Some (c', k') /\ (k <= k')%nat /\ I c'.
Proof.
  intros Hstep fp. remember (String.length fp) as n eqn:Hn.
  revert fp Hn. induction n as [n IH] using lt_wf_ind. intros fp -> c k HP HI.
  rewrite classify_all_unfold. rewrite records_unfold in HP.
  destruct (getdelim LF fp) as [[line rest]|] eqn:E.
  - apply Forall_cons in HP as [Hl Hr].
    destruct (Hstep _ _ k Hl HI) as (c1 & k1 & Hc & Hk & HI1).
    unfold bind. rewrite Hc.
    destruct (IH (String.length rest) (read_record_shorter _ _ _ _ E) rest eq_refl c1 k1 Hr HI1)
      as (c2 & k2 & Hc2 & Hk2 & HI2).
    exists c2, k2. split; [assumption|]. split; [lia|assumption].
  - exists c, k. split; [reflexivity|]. split; [lia|assumption].
Qed.
End HarnessLemmas.

(** ** A whole run: build, drive, clean up *)

Lemma free_strvec_terminated l rest :
  free_strvec ((Str <$> l) ++ Null :: rest) = Some l.
Proof.
  induction l as [|s l IH]; [reflexivity|].
  cbn [fmap list_fmap app free_strvec]. fold (fmap (M:=list) Str l). by rewrite IH.
Qed.

Lemma free_valid arr l :
  valid arr l ->
  exists frees, free_dynamic_array arr = Some (frees, empty_array).
Proof.
  intros [[-> ->] | (rest & He & _)]; unfold free_dynamic_array.
  - by eexists.
  - rewrite He, free_strvec_terminated. by eexists.
Qed.

Lemma cleanup_total c :
  all_valid c -> exists frees, cleanup c = Some (ResetUser :: (Free <$> frees)).
Proof.
  intros Hv. unfold cleanup.
  destruct (Hv PluginArgs) as [l1 H1]. cbn [get] in H1. destruct (free_valid _ _ H1) as [f1 ->].
  destruct (Hv Settings) as [l2 H2]. cbn [get] in H2. destruct (free_valid _ _ H2) as [f2 ->].
  destruct (Hv UserInfo) as [l3 H3]. cbn [get] in H3. destruct (free_valid _ _ H3) as [f3 ->].
  destruct (Hv Argv) as [l4 H4]. cbn [get] in H4. destruct (free_valid _ _ H4) as [f4 ->].
  destruct (Hv EnvAdd) as [l5 H5]. cbn [get] in H5. destruct (free_valid _ _ H5) as [f5 ->].
  by eexists.
Qed.

Lemma opens_app t1 t2 : opens (t1 ++ t2) = opens t1 ++ opens t2.
Proof. apply omap_app. Qed.
Lemma checks_app t1 t2 : checks (t1 ++ t2) = checks t1 ++ checks t2.
Proof. apply omap_app. Qed.
Lemma closes_app t1 t2 : closes (t1 ++ t2) = closes t1 ++ closes t2.
Proof. apply omap_app. Qed.

Lemma frees_silent frees :
  opens (ResetUser :: (Free <$> frees)) = []
  /\ checks (ResetUser :: (Free <$> frees)) = []
  /\ closes (ResetUser :: (Free <$> frees)) = [].
Proof. induction frees as [|f frees (IH1 & IH2 & IH3)]; by repeat split. Qed.

Lemma start_valid : all_valid start.
Proof. intros cat. exists []. left. by destruct cat. Qed.

Section RunLemmas.
Variable mem_ok : oracle.

Lemma classify_step_valid : step_inv mem_ok all_valid (fun _ => True).
Proof.
  intros line c k _ Hv.
  destruct (classify_cases mem_ok line c) as [-> | (cat & -> & _)].
  - exists c, k. by repeat split.
  - destruct (push_to_spec mem_ok cat (Some line) c k Hv) as (c' & k' & Hp & Hk & Hv' & _).
    by exists c', k'.
Qed.

(** The arrays built from any input are valid. *)
Lemma build_valid fp :
  exists c k, build mem_ok fp 0%nat = Some (c, k) /\ all_valid c.
Proof.
  unfold build, bind.
  destruct (push_to_spec mem_ok UserInfo None start 0%nat start_valid)
    as (c1 & k1 & -> & _ & Hv1 & _).
  destruct (push_to_spec mem_ok Settings None c1 k1 Hv1)
    as (c2 & k2 & -> & _ & Hv2 & _).
  destruct (classify_all_inv mem_ok all_valid (fun _ => True) classify_step_valid
              fp c2 k2) as (c3 & k3 & Hc & _ & Hv3); [by apply Forall_true | assumption |].
  by exists c3, k3.
Qed.

Variable P : policy_plugin.

(** The three ways through the [switch] on the result of open. *)
Lemma drive_cases c k :
  all_valid c ->
  let res := policy_open P (entries (settings c)) (entries (user_info c))
               (entries (plugin_args c)) in
  let opened := Open (entries (settings c)) (entries (user_info c))
                  (entries (plugin_args c)) in
  (res = 0 /\ drive mem_ok P c k = Some ((c, opened :: close_call P), k))
  \/ (res = 1 /\ exists c1 k1,
        (if len (argv c) =? 0 then push_to mem_ok Argv (Some "/usr/bin/id"%string) c
         else ret c) k = Some (c1, k1)
        /\ all_valid c1
        /\ drive mem_ok P c k
           = Some ((c1, opened :: CheckPolicy (int (len (argv c1))) (entries (argv c1))
                                    (entries (env_add c1)) :: close_call P), k1))
  \/ (res <> 0 /\ res <> 1 /\ drive mem_ok P c k = Some ((c, [opened]), k)).
Proof.
  intros Hv res opened. unfold drive. fold res. fold opened.
  destruct (Z.eqb_spec res 0) as [E0|E0]; [by left|].
  destruct (Z.eqb_spec res 1) as [E1|E1]; [|by right; right].
  right; left. split; [assumption|].
  unfold bind.
  destruct (len (argv c) =? 0).
  - destruct (push_to_spec mem_ok Argv (Some "/usr/bin/id"%string) c k Hv)
      as (c1 & k1 & Hp & _ & Hv1 & _).
    exists c1, k1. rewrite Hp. by repeat split.
  - exists c, k. by repeat split.
Qed.

(** Every run with an input stream: build, drive, clean up. *)
Lemma run_shape data :
  exists c k c' k' calls frees,
    build mem_ok data 0%nat = Some (c, k)
    /\ all_valid c
    /\ drive mem_ok P c k = Some ((c', calls), k')
    /\ LLVMFuzzerTestOneInput mem_ok true P data
       = Some (0, calls ++ ResetUser :: (Free <$> frees)).
Proof.
  destruct (build_valid data) as (c & k & Hb & Hv).
  assert (exists c' k' calls, drive mem_ok P c k = Some ((c', calls), k') /\ all_valid c')
    as (c' & k' & calls & Hd & Hv').
  { destruct (drive_cases c k Hv) as [[_ H] | [(_ & c1 & k1 & _ & Hv1 & H) | (_ & _ & H)]];
      eauto 10. }
  destruct (cleanup_total c' Hv') as [frees Hf].
  exists c, k, c', k', calls, frees.
  repeat split; try assumption.
  unfold LLVMFuzzerTestOneInput, open_data, iteration, bind.
  rewrite Hb, Hd. cbn [fst snd]. rewrite Hf. reflexivity.
Qed.
End RunLemmas.

(** ** The calls of a run, by kind *)

Lemma close_call_closes P : closes (close_call P) = if policy_close P then [(0, 0)] else [].
Proof. unfold close_call. by destruct (policy_close P). Qed.
Lemma close_call_opens P : opens (close_call P) = [].
Proof. unfold close_call. by destruct (policy_close P). Qed.
Lemma close_call_checks P : checks (close_call P) = [].
Proof. unfold close_call. by destruct (policy_close P). Qed.

(** The calls of a run, sorted by kind. *)
Lemma run_calls mem_ok P data :
  exists c k events,
    build mem_ok data 0%nat = Some (c, k)
    /\ all_valid c
    /\ LLVMFuzzerTestOneInput mem_ok true P data = Some (0, events)
    /\ opens events = [(entries (settings c), entries (user_info c), entries (plugin_args c))]
    /\ let res := policy_open P (entries (settings c)) (entries (user_info c))
                    (entries (plugin_args c)) in
       (res = 0 -> checks events = []
                   /\ closes events = if policy_close P then [(0, 0)] else [])
       /\ (res = 1 -> exists c1 k1,
             (if len (argv c) =? 0 then push_to mem_ok Argv (Some "/usr/bin/id"%string) c
              else ret c) k = Some (c1, k1)
             /\ checks events = [(int (len (argv c1)), entries (argv c1), entries (env_add c1))]
             /\ closes events = if policy_close P then [(0, 0)] else [])
       /\ (res <> 0 -> res <> 1 -> checks events = [] /\ closes events = []).
Proof.
  destruct (run_shape mem_ok P data) as (c & k & c' & k' & calls & frees & Hb & Hv & Hd & Hr).
  exists c, k, (calls ++ ResetUser :: (Free <$> frees)).
  destruct (frees_silent frees) as (Fo & Fch & Fcl).
  rewrite opens_app, checks_app, closes_app, Fo, Fch, Fcl, !app_nil_r.
  split; [assumption|]. split; [assumption|]. split; [assumption|].
  destruct (drive_cases mem_ok P c k Hv)
    as [[E H] | [(E & c1 & k1 & Hp & Hv1 & H) | (E0 & E1 & H)]];
    rewrite H in Hd; injection Hd as <- <- <-.
  - unfold close_call. destruct (policy_close P); cbn;
      (split; [reflexivity|]); repeat split; intros; try lia; reflexivity.
  - unfold close_call. destruct (policy_close P); cbn;
      (split; [reflexivity|]); repeat split; intros; try lia;
      exists c1, k1; by repeat split.
  - cbn. split; [reflexivity|]. repeat split; intros; try lia; reflexivity.
Qed.

(** ** Open, close and the allocator *)

(** Claim C3.  Every run returns 0 and calls the plugin's open once, or
    not at all when no input stream could be set up.  When the result of
    open is neither 0 nor 1 no call of close is made; when it is 0 or 1
    and the plugin has a close function, close is called exactly once,
    with exit status 0 and error 0. *)
Theorem close_unless_fatal mem_ok stream_ok P data :
  exists events,
    LLVMFuzzerTestOneInput mem_ok stream_ok P data = Some (0, events)
    /\ length (opens events) = (if stream_ok then 1 else 0)%nat
    /\ forall s u p, (s, u, p) ∈ opens events ->
         let res := policy_open P s u p in
         (res <> 0 -> res <> 1 -> closes events = [])
         /\ (res = 0 \/ res = 1 ->
             closes events = if policy_close P then [(0, 0)] else []).
Proof.
  destruct stream_ok.
  2:{ exists []. split; [reflexivity|]. split; [reflexivity|].
      intros s u p H. cbn in H. by apply elem_of_nil in H. }
  destruct (run_calls mem_ok P data) as (c & k & events & _ & _ & Hr & Ho & H0 & H1 & Hf).
  exists events. split; [assumption|]. split; [by rewrite Ho|].
  intros s u p Hin. rewrite Ho in Hin. apply list_elem_of_singleton in Hin.
  injection Hin as -> -> ->. cbn zeta. split.
  - intros E0 E1. by destruct (Hf E0 E1).
  - intros [E|E].
    + by destruct (H0 E).
    + by destruct (H1 E) as (c1 & k1 & _ & _ & Hc).
Qed.

(** Claim C2, as amended.  When the plugin's open returns 0 on the
    vectors the loop built, the calls of the run are, in this order: open,
    once; no check_policy; close(0, 0) if the plugin has a close function;
    and only then the teardown, the reset of the user record and the
    release of the arrays.  Only a plugin without a close function sees no
    close. *)
Theorem failed_open_still_closed mem_ok P data :
  exists c k frees,
    build mem_ok data 0%nat = Some (c, k)
    /\ (policy_open P (entries (settings c)) (entries (user_info c))
          (entries (plugin_args c)) = 0 ->
        LLVMFuzzerTestOneInput mem_ok true P data
        = Some (0, Open (entries (settings c)) (entries (user_info c))
                     (entries (plugin_args c))
                   :: (if policy_close P then [Close 0 0] else [])
                   ++ ResetUser :: (Free <$> frees))).
Proof.
  destruct (run_shape mem_ok P data) as (c & k & c' & k' & calls & frees & Hb & Hv & Hd & Hr).
  exists c, k, frees. split; [assumption|]. intros H0.
  destruct (drive_cases mem_ok P c k Hv) as [[_ H] | [(H1 & _) | (Hn & _)]];
    [|cbv zeta in H1; lia | cbv zeta in Hn; lia].
  rewrite Hd in H. injection H as _ Hc _. rewrite Hc in Hr. exact Hr.
Qed.

(** Claim C2 as stated fails: open returns 0, the plugin has a close
    function, and close(0, 0) is called. *)
Lemma close_called_after_failed_open :
  let P := {| policy_open := fun _ _ _ => 0; policy_close := true |} in
  exists events,
    LLVMFuzzerTestOneInput (fun _ => true) true P ("user=alice" +:+ nl) = Some (0, events)
    /\ closes events = [(0, 0)].
Proof. eexists. split; vm_compute; reflexivity. Qed.

Lemma valid_nonnull_terminated arr l :
  valid arr l -> entries arr <> None -> terminated arr l.
Proof. intros [[-> _] | H] Hn; [by destruct Hn | assumption]. Qed.



Lemma initial_pushes mem_ok :
  mem_ok 0%nat = true -> mem_ok 1%nat = true ->
  exists c2,
    (let* c := push_to mem_ok UserInfo None start in
     push_to mem_ok Settings None c) 0%nat = Some (c2, 2%nat)
    /\ all_valid c2
    /\ entries (user_info c2) <> None /\ entries (settings c2) <> None.
Proof.
  intros H0 H1.
  destruct (push_empty mem_ok None 0) as (b & a1 & k1 & Hp1 & Hk1 & Hb1).
  assert (k1 = 1%nat /\ b = true) as [-> ->].
  { revert Hp1. vm_compute. rewrite H0.
    by intros [= <- <- <-]. }
  destruct (push_empty mem_ok None 1) as (b & a2 & k2 & Hp2 & Hk2 & Hb2).
  assert (k2 = 2%nat /\ b = true) as [-> ->].
  { revert Hp2. vm_compute. rewrite H1.
    by intros [= <- <- <-]. }
  exists (set Settings a2 (set UserInfo a1 start)).
  unfold push_to, bind, ret. cbn [get start user_info]. rewrite Hp1. cbn [snd set get settings start].
  rewrite Hp2. cbn [snd set]. split; [reflexivity|].
  split; [|split; cbn; by eapply terminated_nonnull].
  intros [| | | |]; cbn; eexists; first [by (right; eassumption) | by left].
Qed.

Lemma classify_step_present mem_ok :
  step_inv mem_ok
    (fun c => all_valid c /\ entries (user_info c) <> None /\ entries (settings c) <> None)
    (fun _ => True).
Proof.
  intros line c k _ (Hv & Hu & Hs).
  destruct (classify_cases mem_ok line c) as [-> | (cat & -> & _)].
  - exists c, k. by repeat split.
  - destruct (push_to_spec mem_ok cat (Some line) c k Hv) as (c' & k' & Hp & Hk & Hv' & Hn & _).
    exists c', k'. repeat split; try assumption.
    + by apply (Hn UserInfo).
    + by apply (Hn Settings).
Qed.

(** What the two initial pushes are there for.  When the allocator
    grants the growth request of each of them, the user_info and settings
    vectors handed to open are not NULL and are terminated by a NULL cell,
    whatever the input holds. *)
Theorem user_info_and_settings_present mem_ok P data :
  mem_ok 0%nat = true -> mem_ok 1%nat = true ->
  exists c k events lu ls,
    build mem_ok data 0%nat = Some (c, k)
    /\ LLVMFuzzerTestOneInput mem_ok true P data = Some (0, events)
    /\ opens events
       = [(entries (settings c), entries (user_info c), entries (plugin_args c))]
    /\ terminated (user_info c) lu /\ terminated (settings c) ls
    /\ entries (user_info c) <> None /\ entries (settings c) <> None.
Proof.
  intros H0 H1.
  destruct (run_calls mem_ok P data) as (c & k & events & Hb & Hv & Hr & Ho & _).
  destruct (initial_pushes mem_ok H0 H1) as (c2 & Hi & Hv2 & Hu2 & Hs2).
  destruct (classify_all_inv mem_ok _ _ (classify_step_present mem_ok) data c2 2%nat)
    as (c3 & k3 & Hc & _ & Hv3 & Hu3 & Hs3); [by apply Forall_true | by repeat split |].
  assert (c3 = c) as ->.
  { assert (build mem_ok data 0%nat = Some (c3, k3)) as Hb'; [|congruence].
    unfold build, bind. unfold bind in Hi.
    destruct (push_to mem_ok UserInfo None start 0%nat) as [[c1 k1]|]; [|discriminate].
    by rewrite Hi. }
  destruct (Hv UserInfo) as [lu Hlu]. destruct (Hv Settings) as [ls Hls].
  exists c, k, events, lu, ls. repeat split; try assumption.
  - by apply valid_nonnull_terminated.
  - by apply valid_nonnull_terminated.
Qed.

(** The same on the empty input. *)
Lemma user_info_and_settings_present_witness :
  let P := {| policy_open := fun _ _ _ => 1; policy_close := true |} in
  exists c k events lu ls,
    build (fun _ => true) "" 0%nat = Some (c, k)
    /\ LLVMFuzzerTestOneInput (fun _ => true) true P "" = Some (0, events)
    /\ opens events
       = [(entries (settings c), entries (user_info c), entries (plugin_args c))]
    /\ terminated (user_info c) lu /\ terminated (settings c) ls
    /\ entries (user_info c) <> None /\ entries (settings c) <> None.
Proof.
  intros P. apply (user_info_and_settings_present (fun _ => true) P ""); reflexivity.
Defined.

(** Claim C7 is what the comment above the two initial pushes asks for,
    and the code misses it: the result of these pushes is dropped like
    that of every push.  With the first request refused (the growth of
    user_info) and no user_info line in the input, open is handed NULL
    for user_info; with the second refused (the growth of settings) and
    no settings line, NULL for settings. *)
Theorem user_info_null_at_open :
  let P := {| policy_open := fun _ _ _ => 1; policy_close := true |} in
  (exists events,
     LLVMFuzzerTestOneInput (fun j => negb (j =? 0)%nat) true P ("foo=bar" +:+ nl)
     = Some (0, events)
     /\ opens events
        = [(Some (Str "foo=bar" :: Null :: replicate 126 Junk), None, None)])
  /\ (exists events,
        LLVMFuzzerTestOneInput (fun j => negb (j =? 1)%nat) true P ("user=alice" +:+ nl)
        = Some (0, events)
        /\ opens events
           = [(None, Some (Str "user=alice" :: Null :: replicate 126 Junk), None)]).
Proof. split; eexists; split; vm_compute; reflexivity. Qed.

(** ** Keys and the default command *)

Lemma code_inj c1 c2 : code c1 = code c2 -> c1 = c2.
Proof.
  unfold code. intros H%Nat2Z.inj.
  rewrite <- (ascii_nat_embedding c1), <- (ascii_nat_embedding c2). by rewrite H.
Qed.

Lemma strncmp_S s1 s2 n :
  strncmp s1 s2 (S n)
  = if Ascii.eqb (first_byte s1) (first_byte s2) then
      if Ascii.eqb (first_byte s1) NUL then 0
      else match s1, s2 with
           | String _ r1, String _ r2 => strncmp r1 r2 n
           | _, _ => 0
           end
    else code (first_byte s1) - code (first_byte s2).
Proof. reflexivity. Qed.

(** A key without NUL bytes is found only at the start of the lines that
    begin with it. *)
Lemma has_key_prefix key :
  nul_free key = true ->
  forall line, has_key line key = true -> exists r, line = key +:+ r.
Proof.
  unfold has_key, sizeof_lit.
  induction key as [|c key IH]; intros Hn line H.
  - by exists line.
  - cbn [nul_free] in Hn. apply andb_true_iff in Hn as [Hc Hn].
    apply negb_true_iff in Hc.
    cbn [String.length] in H. rewrite strncmp_S in H.
    change (first_byte (String c key)) with c in H.
    destruct (Ascii.eqb_spec (first_byte line) c) as [E|E].
    + rewrite E, Hc in H. destruct line as [|c' line]; cbn in E.
      * subst c. discriminate.
      * subst c'. destruct (IH Hn line H) as [r ->]. by exists r.
    + apply Z.eqb_eq in H. destruct E. apply code_inj. lia.
Qed.

Lemma has_key_start key r : nul_free key = true -> has_key (key +:+ r) key = true.
Proof.
  unfold has_key, sizeof_lit.
  induction key as [|c key IH]; intros Hn; [reflexivity|].
  cbn [nul_free] in Hn. apply andb_true_iff in Hn as [Hc Hn].
  apply negb_true_iff in Hc.
  change (String c key +:+ r) with (String c (key +:+ r)).
  cbn [String.length]. rewrite strncmp_S.
  cbn [first_byte]. rewrite Ascii.eqb_refl, Hc. by apply IH.
Qed.

(** The test for a key is the test for the line beginning with its bytes. *)
Lemma has_key_iff key line :
  nul_free key = true ->
  has_key line key = true <-> exists r, line = key +:+ r.
Proof.
  intros Hn. split; [by apply has_key_prefix|]. intros [r ->]. by apply has_key_start.
Qed.

Section Argv.
Variable mem_ok : oracle.

Lemma classify_step_no_argv :
  step_inv mem_ok
    (fun c => all_valid c /\ argv c = empty_array)
    (fun line => forall rest, line <> "argv=" +:+ rest).
Proof.
  intros line c k Hl (Hv & Ha).
  destruct (classify_cases mem_ok line c) as [-> | (cat & -> & Hk)].
  - exists c, k. by repeat split.
  - destruct (push_to_spec mem_ok cat (Some line) c k Hv) as (c' & k' & Hp & Hk' & Hv' & _ & Hf).
    exists c', k'. repeat split; try assumption.
    destruct (decide (cat = Argv)) as [->|Hne].
    + destruct (has_key_prefix "argv=" eq_refl line (Hk eq_refl)) as [r ->].
      by destruct (Hl r).
    + rewrite <- Ha. apply (Hf Argv). congruence.
Qed.

Lemma build_no_argv data c k :
  build mem_ok data 0%nat = Some (c, k) ->
  (forall line rest, line ∈ records data -> line <> "argv=" +:+ rest) ->
  argv c = empty_array.
Proof.
  intros Hb Hl. revert Hb. unfold build, bind.
  destruct (push_to_spec mem_ok UserInfo None start 0%nat start_valid)
    as (c1 & k1 & -> & _ & Hv1 & _ & Hf1).
  destruct (push_to_spec mem_ok Settings None c1 k1 Hv1)
    as (c2 & k2 & -> & _ & Hv2 & _ & Hf2).
  destruct (classify_all_inv mem_ok _ _ classify_step_no_argv data c2 k2)
    as (c3 & k3 & -> & _ & _ & Ha).
  - apply Forall_forall. intros line Hin rest. by apply Hl.
  - split; [assumption|].
    specialize (Hf2 Argv). specialize (Hf1 Argv). cbn [get] in *.
    rewrite Hf2, Hf1 by discriminate. reflexivity.
  - by intros [= <- _].
Qed.

Lemma push_default_command c k :
  argv c = empty_array -> mem_ok k = true -> mem_ok (S k) = true ->
  exists c1 k1 junk,
    push_to mem_ok Argv (Some "/usr/bin/id"%string) c k = Some (c1, k1)
    /\ entries (argv c1) = Some (Str "/usr/bin/id" :: Null :: junk)
    /\ len (argv c1) = 1
    /\ env_add c1 = env_add c.
Proof.
  intros Ha H0 H1. unfold push_to, bind, ret. cbn [get]. rewrite Ha.
  destruct (push_empty mem_ok (Some "/usr/bin/id"%string) k)
    as (b & a & k1 & -> & Hk & Hb).
  destruct b.
  - destruct Hb as (junk & He & Hl & _).
    exists (set Argv a c), k1, junk. cbn [snd set argv env_add].
    split; [reflexivity|]. split; [exact He|]. split; [exact Hl|reflexivity].
  - destruct Hb as (_ & j & Hj & Hf).
    assert (j = k \/ j = S k) as [-> | ->] by lia; congruence.
Qed.

(** What the push of the default command is there for.  When no record
    of the input begins with argv=, open returns 1 and the allocator
    grants the two requests of that push, check_policy is called once,
    with argc 1 and an argv vector holding /usr/bin/id followed by NULL. *)
Theorem default_command P data c k :
  build mem_ok data 0%nat = Some (c, k) ->
  (forall line rest, line ∈ records data -> line <> "argv=" +:+ rest) ->
  policy_open P (entries (settings c)) (entries (user_info c))
    (entries (plugin_args c)) = 1 ->
  mem_ok k = true -> mem_ok (S k) = true ->
  exists events junk,
    LLVMFuzzerTestOneInput mem_ok true P data = Some (0, events)
    /\ checks events
       = [(1, Some (Str "/usr/bin/id" :: Null :: junk), entries (env_add c))].
Proof.
  intros Hb Hl Hres H0 H1.
  destruct (run_calls mem_ok P data) as (c' & k' & events & Hb' & _ & Hr & _ & _ & Hone & _).
  rewrite Hb in Hb'. injection Hb' as <- <-.
  destruct (Hone Hres) as (c1 & k1 & Hp & Hc & _).
  pose proof (build_no_argv data c k Hb Hl) as Ha.
  rewrite Ha in Hp. cbn [len empty_array] in Hp. cbn [Z.eqb] in Hp.
  destruct (push_default_command c k Ha H0 H1) as (c1' & k1' & junk & Hp' & He & Hlen & Henv).
  rewrite Hp' in Hp. injection Hp as <- <-.
  exists events, junk. split; [assumption|].
  rewrite Hc, He, Hlen, Henv. reflexivity.
Qed.
End Argv.

(** The same on an input with a user and an environment line. *)
Lemma default_command_witness :
  let P := {| policy_open := fun _ _ _ => 1; policy_close := true |} in
  let data := "user=alice" +:+ nl +:+ "env=A=1" in
  exists events junk,
    LLVMFuzzerTestOneInput (fun _ => true) true P data = Some (0, events)
    /\ checks events
       = [(1, Some (Str "/usr/bin/id" :: Null :: junk),
           Some (Str "env=A=1" :: Null :: replicate 126 Junk))].
Proof.
  intros P data.
  refine (default_command (fun _ => true) P data
            (mk_collections empty_array
               (mk_array (Some (Null :: replicate 127 Junk)) 0 128)
               (mk_array (Some (Str "user=alice" :: Null :: replicate 126 Junk)) 1 128)
               empty_array
               (mk_array (Some (Str "env=A=1" :: Null :: replicate 126 Junk)) 1 128))
            5%nat _ _ _ _ _).
  - vm_compute. reflexivity.
  - intros line rest Hin. vm_compute in Hin.
    apply elem_of_cons in Hin as [-> | Hin]; [discriminate|].
    apply list_elem_of_singleton in Hin as ->. discriminate.
  - reflexivity.
  - reflexivity.
  - reflexivity.
Defined.

(** Claim C6 is what the comment above the push of the default command
    asks for, and the code misses it: the result of that push is dropped.
    On an input without an argv line, with open returning 1 and the copy
    of /usr/bin/id refused (the fourth request here), check_policy is
    called with argc 0 and a NULL argv; with every request granted it gets
    the default command. *)
Theorem default_command_lost :
  let P := {| policy_open := fun _ _ _ => 1; policy_close := true |} in
  let data := "user=alice" +:+ nl in
  records data = ["user=alice"%string]
  /\ (exists events,
        LLVMFuzzerTestOneInput (fun j => negb (j =? 3)%nat) true P data = Some (0, events)
        /\ checks events = [(0, None, None)])
  /\ (exists events,
        LLVMFuzzerTestOneInput (fun _ => true) true P data = Some (0, events)
        /\ checks events
           = [(1, Some (Str "/usr/bin/id" :: Null :: replicate 126 Junk), None)]).
Proof.
  split; [vm_compute; reflexivity|].
  split; eexists; split; vm_compute; reflexivity.
Qed.

(** ** Classification of a line *)

Lemma keys_nul_free : Forall (fun key => nul_free key = true) keys.
Proof. unfold keys. repeat constructor. Qed.


Ltac in_keys :=
  unfold keys; repeat first [apply list_elem_of_here | apply list_elem_of_further].




(** The lines of claim C5, one after the other, on the arrays as the two
    initial pushes leave them: each is in its array afterwards, the
    comment and the empty line in none. *)
Example classify_example :
  let c0 := mk_collections empty_array
              (mk_array (Some (Null :: replicate 127 Junk)) 0 128)
              (mk_array (Some (Null :: replicate 127 Junk)) 0 128)
              empty_array empty_array in
  let mem_ok := fun _ : nat => true in
  let strings cat c := free_strvec (default [] (entries (get cat c))) in
  exists c4,
    (let* c1 := classify mem_ok "user=alice" c0 in
     let* c2 := classify mem_ok "uid=1000" c1 in
     let* c3 := classify mem_ok "argv=/bin/ls" c2 in
     let* c4 := classify mem_ok "foo=bar" c3 in
     let* c5 := classify mem_ok "# comment" c4 in
     classify mem_ok "" c5) 2%nat = Some (c4, 7%nat)
    /\ strings UserInfo c4 = Some ["user=alice"; "uid=1000"]%string
    /\ strings Argv c4 = Some ["argv=/bin/ls"%string]
    /\ strings Settings c4 = Some ["foo=bar"%string]
    /\ entries (plugin_args c4) = None /\ entries (env_add c4) = None.
Proof.
  eexists. split; [vm_compute; reflexivity|].
  split; [vm_compute; reflexivity|]. split; [vm_compute; reflexivity|].
  split; [vm_compute; reflexivity|]. split; reflexivity.
Qed.

(** ** Sequences of pushes *)

Section PushSeq.
Variable mem_ok : oracle.

Lemma push_seq_valid es : forall arr l k,
  valid arr l ->
  exists rs arr' k',
    push_seq mem_ok arr es k = Some ((rs, arr'), k')
    /\ length rs = length es
    /\ valid arr' (l ++ kept es rs)
    /\ (terminated arr l \/ true ∈ rs -> terminated arr' (l ++ kept es rs)).
Proof.
  induction es as [|e es IH]; intros arr l k Hv.
  - exists [], arr, k. cbn. rewrite app_nil_r. repeat split; try assumption.
    intros [H|H]; [assumption | by apply elem_of_nil in H].
  - destruct (push_valid mem_ok arr l e k Hv) as (b & arr1 & k1 & Hp & _ & Hb).
    cbn [push_seq]. unfold bind at 1. rewrite Hp. cbn [fst snd].
    destruct b.
    + destruct (IH arr1 (l ++ copied e) k1 (terminated_valid _ _ Hb))
        as (rs & arr' & k' & Hs & Hlen & Hv' & Ht).
      exists (true :: rs), arr', k'. unfold bind, ret. rewrite Hs. cbn [fst snd kept length].
      rewrite (assoc_L (++)). repeat split; try assumption; [by f_equal|].
      intros _. apply Ht. by left.
    + destruct Hb as [-> _].
      destruct (IH arr l k1 Hv) as (rs & arr' & k' & Hs & Hlen & Hv' & Ht).
      exists (false :: rs), arr', k'. unfold bind, ret. rewrite Hs. cbn [fst snd kept length].
      repeat split; try assumption; [by f_equal|].
      intros [H|H]; apply Ht; [by left|].
      apply elem_of_cons in H as [H|H]; [discriminate | by right].
Qed.

Lemma kept_all (ss : list string) : forall rs,
  length rs = length (Some <$> ss) -> Forall (eq true) rs ->
  kept (Some <$> ss) rs = cstring <$> ss.
Proof.
  induction ss as [|s ss IH]; intros [|r rs] Hlen Hall; try discriminate; [reflexivity|].
  apply Forall_cons in Hall as [<- Hall]. cbn. f_equal. apply IH; [|assumption].
  cbn in Hlen. by injection Hlen.
Qed.

Lemma push_true_size arr l e k arr' k' :
  valid arr l -> push mem_ok arr e k = Some ((true, arr'), k') ->
  size arr' <= size arr + 128.
Proof.
  intros Hv Hp. apply push_true_fields in Hp as [_ ->].
  assert (0 <= size arr < 2 ^ 61) as Hs.
  { destruct Hv as [[-> _] | (rest & _ & _ & Hs & Hm)]; [cbn; lia|].
    unfold sizeof_ptr, SIZE_MAX in Hm. lia. }
  destruct (_ <=? _); [rewrite size_t_small|]; lia.
Qed.

(** With every request granted, every push of a sequence returns [true],
    as long as the buffer stays far from the end of the address space. *)
Lemma push_seq_granted es : forall arr l k rs arr' k',
  valid arr l -> (forall j, mem_ok j = true) ->
  size arr + 128 * Z.of_nat (length es) < 2 ^ 60 ->
  push_seq mem_ok arr es k = Some ((rs, arr'), k') ->
  Forall (eq true) rs.
Proof.
  induction es as [|e es IH]; intros arr l k rs arr' k' Hv Hg Hs.
  - intros [= <- _ _]. by apply Forall_nil.
  - cbn [push_seq]. unfold bind at 1.
    destruct (push_valid mem_ok arr l e k Hv) as (b & a1 & k1 & Hp & _ & Hb).
    rewrite Hp. cbn [fst snd]. unfold bind, ret.
    destruct (push_seq mem_ok a1 es k1) as [[[rs1 a2] k2]|] eqn:Hq; [|discriminate].
    cbn [fst snd]. intros [= <- _ _]. cbn [length] in Hs.
    destruct b.
    + apply Forall_cons. split; [reflexivity|].
      pose proof (push_true_size arr l e k a1 k1 Hv Hp) as Hsz.
      apply (IH a1 (l ++ copied e) k1 rs1 a2 k2); [by right | assumption | lia | assumption].
    + exfalso. destruct Hb as [_ [(j & _ & Hm) | Ho]]; [by rewrite Hg in Hm|].
      unfold sizeof_ptr, SIZE_MAX in Ho. lia.
Qed.

(** Claim C4.  On a valid array holding [l], a push, of a string or of
    NULL, returns [true] when the allocator grants its requests, and every
    push that returns [true] leaves the array terminated: the strings it
    held and the new copy in the first cells, NULL in the next one; a push
    that returns [false] leaves it as it was.  After N pushes of strings
    that all return [true], as they do when the allocator grants every
    request, the array holds the N copies after [l], then NULL, and [len]
    has grown by N. *)
Theorem pushes_keep_sentinel arr l :
  valid arr l ->
  (forall e k, exists b arr' k',
      push mem_ok arr e k = Some ((b, arr'), k')
      /\ (b = true -> terminated arr' (l ++ copied e))
      /\ (b = false -> arr' = arr)
      /\ (mem_ok k = true -> mem_ok (S k) = true ->
          (size arr + 128) * sizeof_ptr <= SIZE_MAX -> b = true))
  /\ (forall ss k, exists rs arr' k',
        push_seq mem_ok arr (Some <$> ss) k = Some ((rs, arr'), k')
        /\ length rs = length ss
        /\ (ss <> [] -> Forall (eq true) rs ->
            terminated arr' (l ++ (cstring <$> ss))
            /\ len arr' = Z.of_nat (length l + length ss))
        /\ ((forall j, mem_ok j = true) ->
            size arr + 128 * Z.of_nat (length ss) < 2 ^ 60 ->
            Forall (eq true) rs)).
Proof.
  intros Hv. split.
  - intros e k. destruct (push_valid mem_ok arr l e k Hv) as (b & arr' & k' & Hp & Hk & Hb).
    exists b, arr', k'. split; [assumption|].
    destruct b.
    + split; [by intros _|]. split; [discriminate | by intros _ _ _].
    + destruct Hb as [-> Hwhy]. split; [discriminate|]. split; [by intros _|].
      intros H0 H1 Hfit. destruct Hwhy as [(j & Hj & Hm) | Ho]; [|lia].
      assert (j = k \/ j = S k) as [-> | ->] by lia; congruence.
  - intros ss k.
    destruct (push_seq_valid (Some <$> ss) arr l k Hv) as (rs & arr' & k' & Hs & Hlen & _ & Ht).
    exists rs, arr', k'. split; [assumption|].
    split; [by rewrite Hlen, length_fmap|]. split.
    + intros Hne Hall.
      rewrite (kept_all ss rs Hlen Hall) in Ht.
      assert (terminated arr' (l ++ (cstring <$> ss))) as Hterm.
      { apply Ht. right. destruct ss as [|s ss]; [done|].
        destruct rs as [|r rs]; [discriminate|].
        apply Forall_cons in Hall as [<- _]. apply list_elem_of_here. }
      split; [assumption|].
      destruct Hterm as (rest & _ & Hl & _). rewrite Hl, length_app, length_fmap. reflexivity.
    + intros Hg Hsz.
      apply (push_seq_granted (Some <$> ss) arr l k rs arr' k' Hv Hg); [|assumption].
      by rewrite length_fmap.
Qed.
End PushSeq.

(** Claim C4 from the array as initialised, with an allocator that grants
    every request: two pushes of strings return [true] and leave the two
    copies followed by NULL; a push of NULL on the array as initialised
    returns [true] and leaves the NULL alone. *)
Lemma pushes_keep_sentinel_witness :
  valid empty_array []
  /\ (exists arr' k',
        push_seq (fun _ => true) empty_array [Some "a"; Some "b"]%string 0%nat
        = Some (([true; true], arr'), k')
        /\ terminated arr' ["a"; "b"]%string /\ len arr' = 2)
  /\ (exists arr' k',
        push (fun _ => true) empty_array None 0%nat = Some ((true, arr'), k')
        /\ terminated arr' []).
Proof.
  assert (valid empty_array []) as Hv by (by left).
  split; [exact Hv|].
  destruct (pushes_keep_sentinel (fun _ => true) empty_array [] Hv) as [H1 H2].
  split.
  - destruct (H2 ["a"; "b"]%string 0%nat) as (rs & arr' & k' & Hs & Hlen & Ht & Hg).
    assert (Forall (eq true) rs) as Hall by (apply Hg; [reflexivity | reflexivity]).
    destruct rs as [|r1 [|r2 [|r3 rs]]]; try discriminate.
    apply Forall_cons in Hall as [<- Hall]. apply Forall_cons in Hall as [<- _].
    exists arr', k'. split; [exact Hs|]. apply Ht; [discriminate | by repeat constructor].
  - destruct (H1 None 0%nat) as (b & arr' & k' & Hp & Ht & _ & Hg).
    assert (b = true) as -> by (apply Hg; [reflexivity | reflexivity | by vm_compute]).
    exists arr', k'. split; [exact Hp|]. by apply Ht.
Defined.

Example push_three :
  exists junk,
    push_seq (fun _ => true) empty_array [Some "a"; None; Some "b"; Some "c"]%string 0%nat
    = Some (([true; true; true; true],
             {| entries := Some (Str "a" :: Str "b" :: Str "c" :: Null :: junk);
                len := 3; size := 128 |}), 4%nat).
Proof. eexists. vm_compute. reflexivity. Qed.

(** ** The low byte of the message type; releasing an array *)

Lemma land_255 t : Z.land t 255 = t mod 256.
Proof. change 255 with (Z.ones 8). rewrite Z.land_ones by lia. reflexivity. Qed.

Lemma conv_message_low_byte T m1 m2 w :
  same_low_byte m1 m2 -> conv_message T m1 w = conv_message T m2 w.
Proof.
  intros [Hm Ht]. unfold conv_message. rewrite !land_255, Ht, Hm. reflexivity.
Qed.

Lemma conv_loop_low_byte T msgs1 msgs2 :
  Forall2 same_low_byte msgs1 msgs2 ->
  forall todo n w, conv_loop T todo n msgs1 w = conv_loop T todo n msgs2 w.
Proof.
  intros HF todo. induction todo as [|todo IH]; intros n w; [reflexivity|].
  cbn [conv_loop].
  pose proof (proj1 (Forall2_lookup _ _ _) HF n) as Hn.
  destruct Hn as [m1 m2 Hm|]; [|reflexivity].
  rewrite (conv_message_low_byte T m1 m2 w Hm).
  destruct (conv_message T m2 w) as [[|r] w']; [apply IH | reflexivity].
Qed.

(** Claim C10.  Two calls of fuzz_printf whose message types agree modulo
    256, and two calls of fuzz_conversation on arrays whose messages have
    the same texts and types that agree modulo 256, return the same value
    and leave the two streams and errno in the same state. *)
Theorem callbacks_use_low_byte T t1 t2 text msgs1 msgs2 num_msgs w :
  t1 mod 256 = t2 mod 256 ->
  Forall2 same_low_byte msgs1 msgs2 ->
  fuzz_printf T t1 text w = fuzz_printf T t2 text w
  /\ fuzz_conversation T num_msgs msgs1 w = fuzz_conversation T num_msgs msgs2 w.
Proof.
  intros Ht HF. split.
  - unfold fuzz_printf. by rewrite !land_255, Ht.
  - unfold fuzz_conversation. by apply conv_loop_low_byte.
Qed.

(** Claim C10 on types that differ by a flag bit or by sign. *)
Lemma callbacks_use_low_byte_witness :
  fuzz_printf sudo_plugin_h 3 "oops" quiet = fuzz_printf sudo_plugin_h (3 + 4096) "oops" quiet
  /\ fuzz_conversation sudo_plugin_h 2
       [mk_msg 4 (Some "hello"%string); mk_msg (-253) (Some "bye"%string)] quiet
     = fuzz_conversation sudo_plugin_h 2
       [mk_msg (4 + 8192) (Some "hello"%string); mk_msg 3 (Some "bye"%string)] quiet.
Proof.
  apply callbacks_use_low_byte; [reflexivity|].
  repeat constructor.
Defined.

(** Claim C9.  Releasing an array whose [entries] is NULL frees nothing
    and leaves the record zeroed; that is the state of an array as
    initialised and of one on which every push has failed. *)
Theorem free_never_pushed :
  (forall n m : Z,
      free_dynamic_array {| entries := None; len := n; size := m |}
      = Some ([], empty_array))
  /\ free_dynamic_array empty_array = Some ([], empty_array)
  /\ (forall mem_ok es k rs arr' k',
        push_seq mem_ok empty_array es k = Some ((rs, arr'), k') ->
        true ∉ rs ->
        entries arr' = None
        /\ free_dynamic_array arr' = Some ([], empty_array)).
Proof.
  split; [reflexivity|]. split; [reflexivity|].
  intros mem_ok es. induction es as [|e es IH]; intros k rs arr' k'.
  - intros [= <- <- _] _. by split.
  - cbn [push_seq]. unfold bind at 1.
    destruct (push_empty mem_ok e k) as (b & a1 & k1 & -> & _ & Hb).
    cbn [fst snd]. unfold bind, ret.
    destruct (push_seq mem_ok a1 es k1) as [[[rs1 a2] k2]|] eqn:Hs; [|discriminate].
    cbn [fst snd]. intros [= <- <- <-] Hn.
    destruct b; [destruct Hn; apply list_elem_of_here|].
    destruct Hb as [-> _]. apply (IH _ _ _ _ Hs).
    intros Hin. apply Hn. by apply list_elem_of_further.
Qed.

(** ** The conversation callback, message by message *)

Lemma append_cons c s t : String c s +:+ t = String c (s +:+ t).
Proof. reflexivity. Qed.

Lemma append_nil_r s : s +:+ "" = s.
Proof. induction s as [|c s IH]; [reflexivity|]. by rewrite append_cons, IH. Qed.

Lemma append_assoc s1 s2 s3 : (s1 +:+ s2) +:+ s3 = s1 +:+ s2 +:+ s3.
Proof. induction s1 as [|c s1 IH]; [reflexivity|]. by rewrite !append_cons, IH. Qed.

Lemma substring_all s : String.substring 0 (String.length s) s = s.
Proof. induction s as [|c s IH]; [reflexivity|]. cbn. by rewrite IH. Qed.

(** The loop over an array of [num_msgs] messages is the loop over the list. *)
Lemma conv_loop_list T msgs : forall todo n w,
  (n + todo = length msgs)%nat ->
  conv_loop T todo n msgs w = Some (conv_list T (drop n msgs) w).
Proof.
  intros todo. induction todo as [|todo IH]; intros n w Hlen.
  - rewrite drop_ge by lia. reflexivity.
  - cbn [conv_loop].
    destruct (msgs !! n) as [m|] eqn:Hm.
    2:{ apply lookup_ge_None in Hm. lia. }
    rewrite (drop_S _ _ _ Hm). cbn [conv_list].
    destruct (conv_message T m w) as [[|r] w']; [|reflexivity].
    apply IH. lia.
Qed.

Lemma fuzz_conversation_list T msgs w :
  fuzz_conversation T (Z.of_nat (length msgs)) msgs w = Some (conv_list T msgs w).
Proof.
  unfold fuzz_conversation. rewrite Nat2Z.id.
  rewrite (conv_loop_list T msgs (length msgs) 0 w) by lia. reflexivity.
Qed.

(** The callback returns nothing but -1 from inside the loop. *)
Lemma conv_message_returns T m w r w' :
  conv_message T m w = (Return r, w') -> r = -1.
Proof.
  unfold conv_message.
  repeat match goal with
  | |- context [if ?b then _ else _] => destruct b
  | |- context [match ?o with Some _ => _ | None => _ end] => destruct o
  | |- context [let '(_, _) := ?p in _] => destruct p
  end; intros [= <- _] || intros [=]; reflexivity.
Qed.

Lemma conv_message_prompt T m w :
  is_prompt T m = true -> conv_message T m w = (Return (-1), w).
Proof. unfold is_prompt, conv_message. cbn zeta. by intros ->. Qed.

Lemma conv_list_prompt T msgs : forall w m,
  m ∈ msgs -> is_prompt T m = true -> (conv_list T msgs w).1 = -1.
Proof.
  induction msgs as [|m0 msgs IH]; intros w m Hin Hp; [by apply elem_of_nil in Hin|].
  cbn [conv_list].
  destruct (conv_message T m0 w) as [[|r] w'] eqn:E.
  - apply elem_of_cons in Hin as [-> | Hin]; [|by eapply IH].
    rewrite conv_message_prompt in E by assumption. discriminate.
  - cbn. by eapply conv_message_returns.
Qed.

Lemma short_same n w : short n n w = w.
Proof. unfold short. by rewrite Nat.ltb_irrefl. Qed.

Lemma short_streams asked got w :
  out (short asked got w) = out w /\ err (short asked got w) = err w.
Proof. unfold short. by destruct (_ <? _)%nat. Qed.

Lemma accept_unlimited f s :
  room f = None ->
  accept f s = (String.length s, {| written := written f +:+ s; room := None |}).
Proof. intros H. unfold accept. rewrite H, substring_all. reflexivity. Qed.

Section Relay.
Variable T : conv_types.
Hypothesis HT : distinct_labels T.

Lemma labels_apart :
  SUDO_CONV_ERROR_MSG T <> SUDO_CONV_INFO_MSG T
  /\ (forall t, t = SUDO_CONV_ERROR_MSG T \/ t = SUDO_CONV_INFO_MSG T ->
        t <> SUDO_CONV_PROMPT_ECHO_ON T /\ t <> SUDO_CONV_PROMPT_MASK T
        /\ t <> SUDO_CONV_PROMPT_ECHO_OFF T).
Proof.
  unfold distinct_labels in HT.
  apply NoDup_cons in HT as [H1 HT1]. apply NoDup_cons in HT1 as [H2 HT2].
  apply NoDup_cons in HT2 as [H3 HT3]. apply NoDup_cons in HT3 as [H4 _].
  rewrite !not_elem_of_cons in H1. rewrite !not_elem_of_cons in H2.
  rewrite !not_elem_of_cons in H3. rewrite !not_elem_of_cons in H4.
  split; [intuition congruence|]. intros t [-> | ->]; intuition congruence.
Qed.

(** An informational or error message goes to its stream, text and
    newline, when the streams take everything. *)
Lemma conv_message_relay m w :
  unlimited w -> is_info T m || is_error T m = true ->
  exists w',
    conv_message T m w = (Next, w')
    /\ unlimited w'
    /\ written (out w') = written (out w) +:+ (if is_info T m then relayed m else "")
    /\ written (err w') = written (err w) +:+ (if is_error T m then relayed m else "").
Proof.
  intros [Ho He] Hk. destruct labels_apart as [Hei Hp].
  unfold conv_message, is_info, is_error, relayed in *. cbn zeta.
  set (t := Z.land (msg_type m) 255) in *.
  assert (t = SUDO_CONV_ERROR_MSG T \/ t = SUDO_CONV_INFO_MSG T) as Ht.
  { apply orb_true_iff in Hk as [E%Z.eqb_eq | E%Z.eqb_eq]; auto. }
  destruct (Hp t Ht) as (P1 & P2 & P3).
  rewrite (proj2 (Z.eqb_neq _ _) P1), (proj2 (Z.eqb_neq _ _) P2), (proj2 (Z.eqb_neq _ _) P3).
  cbn [orb]. rewrite (orb_comm (t =? SUDO_CONV_ERROR_MSG T)), Hk.
  destruct (msg m) as [text|].
  2:{ exists w. repeat split; try assumption;
      repeat match goal with |- context [if ?b then _ else _] => destruct b end;
      by rewrite ?append_nil_r. }
  unfold strlen.
  destruct (cstring text) as [|c s] eqn:Ec.
  { exists w. cbn [String.length Z.of_nat Z.eqb]. repeat split; try assumption;
      repeat match goal with |- context [if ?b then _ else _] => destruct b end;
      by rewrite ?append_nil_r. }
  cbn [String.length]. rewrite (proj2 (Z.eqb_neq _ 0)) by lia.
  destruct Ht as [Ht | Ht]; rewrite Ht.
  - (* error message *)
    rewrite Z.eqb_refl, (proj2 (Z.eqb_neq _ _) Hei).
    unfold fwrite, fputc. cbn [file_of with_file out err].
    rewrite (accept_unlimited (err w)) by assumption. rewrite short_same.
    cbn [file_of with_file out err]. rewrite accept_unlimited by reflexivity.
    rewrite short_same. cbn [written String.length Nat.eqb].
    rewrite (proj2 (Z.eqb_neq _ 0)) by lia.
    change (code LF =? EOF) with false. cbn iota.
    eexists. split; [reflexivity|]. cbn [out err written room]. unfold unlimited.
    cbn [out err written room]. rewrite append_nil_r, append_assoc. by repeat split.
  - (* informational message *)
    assert (SUDO_CONV_INFO_MSG T <> SUDO_CONV_ERROR_MSG T) as Hie by congruence.
    rewrite Z.eqb_refl, (proj2 (Z.eqb_neq _ _) Hie).
    unfold fwrite, fputc. cbn [file_of with_file out err].
    rewrite (accept_unlimited (out w)) by assumption. rewrite short_same.
    cbn [file_of with_file out err]. rewrite accept_unlimited by reflexivity.
    rewrite short_same. cbn [written String.length Nat.eqb].
    rewrite (proj2 (Z.eqb_neq _ 0)) by lia.
    change (code LF =? EOF) with false. cbn iota.
    eexists. split; [reflexivity|]. cbn [out err written room]. unfold unlimited.
    cbn [out err written room]. rewrite append_nil_r, append_assoc. by repeat split.
Qed.
End Relay.

(** ** The conversation callback, invocation by invocation *)

Lemma conv_list_relay T (HT : distinct_labels T) msgs : forall w,
  unlimited w ->
  Forall (fun m => is_info T m || is_error T m = true) msgs ->
  exists w',
    conv_list T msgs w = (0, w')
    /\ written (out w') = written (out w) +:+ printed (is_info T) msgs
    /\ written (err w') = written (err w) +:+ printed (is_error T) msgs.
Proof.
  induction msgs as [|m msgs IH]; intros w Hu HF.
  - exists w. cbn. by rewrite !append_nil_r.
  - apply Forall_cons in HF as [Hm HF].
    destruct (conv_message_relay T HT m w Hu Hm) as (w1 & E & Hu1 & Ho1 & He1).
    destruct (IH w1 Hu1 HF) as (w2 & E2 & Ho2 & He2).
    exists w2. cbn [conv_list printed]. rewrite E, E2.
    split; [reflexivity|].
    by rewrite Ho2, He2, Ho1, He1, !append_assoc.
Qed.

(** Claim C8, as amended.  An invocation on an array that holds a message
    asking for input returns -1.  For an informational or error message
    that the loop reaches, on streams that accept every write, the text
    and a newline are appended to standard output or to standard error
    respectively and the loop goes on; a NULL or empty text adds nothing,
    not even the newline.  So an invocation whose messages are all
    informational or error messages returns 0 and has written them, in
    order, each to its stream. *)
Theorem conversation_relays T msgs w :
  distinct_labels T ->
  (forall m, m ∈ msgs -> is_prompt T m = true ->
     exists w', fuzz_conversation T (Z.of_nat (length msgs)) msgs w = Some (-1, w'))
  /\ (forall m w1,
        unlimited w1 -> is_info T m || is_error T m = true ->
        exists w2,
          conv_message T m w1 = (Next, w2)
          /\ unlimited w2
          /\ written (out w2)
             = written (out w1) +:+ (if is_info T m then relayed m else "")
          /\ written (err w2)
             = written (err w1) +:+ (if is_error T m then relayed m else ""))
  /\ (unlimited w ->
      Forall (fun m => is_info T m || is_error T m = true) msgs ->
      exists w',
        fuzz_conversation T (Z.of_nat (length msgs)) msgs w = Some (0, w')
        /\ written (out w') = written (out w) +:+ printed (is_info T) msgs
        /\ written (err w') = written (err w) +:+ printed (is_error T) msgs).
Proof.
  intros HT. rewrite fuzz_conversation_list. split; [|split].
  - intros m Hin Hp. pose proof (conv_list_prompt T msgs w m Hin Hp) as H.
    destruct (conv_list T msgs w) as [r w']. cbn in H. subst r. by exists w'.
  - intros m w1. by apply conv_message_relay.
  - intros Hu HF. destruct (conv_list_relay T HT msgs w Hu HF) as (w' & -> & Ho & He).
    by exists w'.
Qed.

(** Claim C8, as amended, on one informational and one error message. *)
Lemma conversation_relays_witness :
  distinct_labels sudo_plugin_h
  /\ exists w',
       fuzz_conversation sudo_plugin_h 2
         [mk_msg 4 (Some "hello"%string); mk_msg 3 (Some "oops"%string)] quiet
       = Some (0, w')
       /\ written (out w') = "" +:+ ("hello" +:+ nl) +:+ "" +:+ ""
       /\ written (err w') = "" +:+ "" +:+ ("oops" +:+ nl) +:+ "".
Proof.
  assert (distinct_labels sudo_plugin_h) as HT.
  { apply (bool_decide_unpack _). vm_compute. exact I. }
  split; [exact HT|].
  apply (proj2 (proj2 (conversation_relays sudo_plugin_h
           [mk_msg 4 (Some "hello"%string); mk_msg 3 (Some "oops"%string)] quiet HT))).
  - split; reflexivity.
  - repeat constructor.
Defined.

(** Claim C8 as stated fails: an informational message with an empty text
    and an error message with a NULL text are accepted, and nothing is
    written for them, no newline either. *)
Lemma empty_message_not_relayed :
  fuzz_conversation sudo_plugin_h 1 [mk_msg 4 (Some ""%string)] quiet = Some (0, quiet)
  /\ fuzz_conversation sudo_plugin_h 1 [mk_msg 3 None] quiet = Some (0, quiet)
  /\ written (out quiet) <> nl /\ written (err quiet) <> nl.
Proof. repeat split; discriminate. Qed.

Example conversation_example :
  fuzz_conversation sudo_plugin_h 3
    [mk_msg 4 (Some "hello"%string); mk_msg 3 (Some "oops"%string);
     mk_msg 2 (Some "Password: "%string)] quiet
  = Some (-1, {| out := mk_FILE ("hello" +:+ nl) None;
                 err := mk_FILE ("oops" +:+ nl) None; errno := 0 |}).
Proof. reflexivity. Qed.

(** * Further properties of the harness, the callbacks and the stubs *)

Import Plan Stubs.

(** ** The capacity of an array *)

Lemma terminated_bounds arr l :
  terminated arr l -> 0 <= len arr < size arr /\ size arr * 8 <= 2 ^ 64 - 1.
Proof.
  intros (rest & _ & Hl & Hs & Hb). unfold sizeof_ptr, SIZE_MAX in Hb. lia.
Qed.

(** One push keeps the capacity tight. *)
Lemma push_tight mem_ok arr l e k arr' k' :
  valid arr l -> arr = empty_array \/ tight arr ->
  push mem_ok arr e k = Some ((true, arr'), k') ->
  tight arr'.
Proof.
  intros Hv Ht Hp.
  destruct (push_valid mem_ok arr l e k Hv) as (b & a & k1 & Hp' & _ & Hb).
  rewrite Hp in Hp'. injection Hp' as <- <- <-.
  apply terminated_bounds in Hb as [Hb1 Hb2].
  apply push_true_fields in Hp as [Hl Hs]. unfold tight in *.
  assert (0 <= len arr /\ size arr * 8 <= 2 ^ 64 - 1
          /\ ((len arr = 0 /\ size arr = 0)
              \/ (len arr < size arr /\ size arr = 128 * (len arr / 128 + 1))))
    as (H0 & H1 & H2).
  { destruct Hv as [[-> ->] | Hv]; [cbn; lia|].
    destruct Ht as [-> | Ht]; [by destruct Hv as (? & ? & _)|].
    apply terminated_bounds in Hv. lia. }
  clear Hv Ht.
  assert (0 <= nonnull e <= 1) as Hn by (destruct e; cbn; lia).
  rewrite (size_t_small (len arr + nonnull e)) in Hs by lia.
  assert (len arr' = len arr + nonnull e) as Hl'.
  { destruct e; cbn [nonnull]; [rewrite size_t_small in Hl; lia | lia]. }
  clear Hl.
  destruct (Z.leb_spec (size arr) (len arr + nonnull e)) as [Hg|Hg].
  - (* grown by one block *)
    assert (size arr' = size arr + 128) as Hs'.
    { rewrite Hs. apply size_t_small. lia. }
    rewrite Hs', Hl'. destruct H2 as [[E1 E2] | [E1 E2]].
    + rewrite E1, E2. destruct e; cbn; reflexivity.
    + assert (nonnull e = 1) as -> by lia.
      assert (len arr + 1 = (len arr / 128 + 1) * 128) as E by lia.
      rewrite E, Z.div_mul by lia. lia.
  - rewrite Hs, Hl'. destruct H2 as [[E1 E2] | [E1 E2]]; [lia|].
    rewrite E2. f_equal. f_equal.
    pose proof (Z.div_mod (len arr) 128). pose proof (Z.mod_pos_bound (len arr) 128).
    apply (Z.div_unique (len arr + nonnull e) 128 (len arr / 128)
             (len arr mod 128 + nonnull e)); lia.
Qed.

Section PushMore.
Variable mem_ok : oracle.

Lemma push_seq_tight es : forall arr l k rs arr' k',
  valid arr l -> arr = empty_array \/ tight arr ->
  push_seq mem_ok arr es k = Some ((rs, arr'), k') ->
  valid arr' (l ++ kept es rs)
  /\ (arr' = arr \/ tight arr')
  /\ (true ∈ rs -> tight arr' /\ terminated arr' (l ++ kept es rs))
  /\ (true ∉ rs -> arr' = arr).
Proof.
  induction es as [|e es IH]; intros arr l k rs arr' k' Hv Ht.
  - intros [= <- <- _]. cbn. rewrite app_nil_r. split; [assumption|]. split; [by left|].
    split; [by intros ?%elem_of_nil | done].
  - cbn [push_seq]. unfold bind at 1.
    destruct (push_valid mem_ok arr l e k Hv) as (b & a1 & k1 & Hp & _ & Hb).
    rewrite Hp. cbn [fst snd]. unfold bind, ret.
    destruct (push_seq mem_ok a1 es k1) as [[[rs1 a2] k2]|] eqn:Hs; [|discriminate].
    cbn [fst snd]. intros [= <- <- <-].
    destruct b.
    + pose proof (push_tight mem_ok arr l e k a1 k1 Hv Ht Hp) as Ht1.
      destruct (IH a1 (l ++ copied e) k1 rs1 a2 k2 (terminated_valid _ _ Hb) (or_intror Ht1) Hs)
        as (Hv2 & Ht2 & _ & _).
      cbn [kept]. rewrite (assoc_L (++)). split; [assumption|].
      assert (tight a2) by (destruct Ht2 as [-> | ?]; assumption).
      split; [by right|]. split.
      * intros _. split; [assumption|].
        destruct Hv2 as [[-> Hnil] | ?]; [|assumption].
        by destruct (terminated_nonnull _ _ Hb).
      * intros Hn. destruct Hn. apply list_elem_of_here.
    + destruct Hb as [-> _].
      destruct (IH arr l k1 rs1 a2 k2 Hv Ht Hs) as (Hv2 & Ht2 & Ht3 & Ht4).
      cbn [kept]. split; [assumption|]. split; [assumption|]. split.
      * intros [?|?]%elem_of_cons; [discriminate | by apply Ht3].
      * intros Hn. apply Ht4. intros ?. apply Hn. by apply list_elem_of_further.
Qed.

(** Extra X1.  After any sequence of pushes on an array as initialised, of
    which at least one returned [true], the capacity is the least multiple
    of 128 above the length: the buffer grows by blocks of 128 cells, and
    only when the next entry and its terminator no longer fit. *)
Theorem capacity_least_multiple es k rs arr' k' :
  push_seq mem_ok empty_array es k = Some ((rs, arr'), k') ->
  true ∈ rs ->
  size arr' = 128 * (len arr' / 128 + 1)
  /\ len arr' = Z.of_nat (length (kept es rs))
  /\ len arr' < size arr' <= len arr' + 128.
Proof.
  intros Hs Hin.
  destruct (push_seq_tight es empty_array [] k rs arr' k') as (_ & _ & Ht & _);
    [by left | by left | assumption |].
  destruct (Ht Hin) as [Ht' Hv]. unfold tight in Ht'. split; [exact Ht'|].
  pose proof (terminated_bounds _ _ Hv) as [Hb _].
  destruct Hv as (rest & _ & Hl & _). cbn [app] in Hl. split; [exact Hl|].
  pose proof (Z.div_mod (len arr') 128). pose proof (Z.mod_pos_bound (len arr') 128). lia.
Qed.
End PushMore.

(** Extra X1 on 130 pushes of a one-byte string: the second block is there. *)
Lemma capacity_least_multiple_witness :
  exists rs arr' k',
    push_seq (fun _ => true) empty_array (replicate 130 (Some "x"%string)) 0%nat
    = Some ((rs, arr'), k')
    /\ true ∈ rs
    /\ size arr' = 128 * (len arr' / 128 + 1)
    /\ len arr' = Z.of_nat (length (kept (replicate 130 (Some "x"%string)) rs))
    /\ len arr' < size arr' <= len arr' + 128.
Proof.
  destruct (push_seq (fun _ => true) empty_array (replicate 130 (Some "x"%string)) 0%nat)
    as [[[rs arr'] k']|] eqn:E; [|vm_compute in E; discriminate].
  exists rs, arr', k'. split; [reflexivity|].
  assert (true ∈ rs) as Hin.
  { revert E. vm_compute. intros [= <- _ _]. apply list_elem_of_here. }
  split; [exact Hin|].
  exact (capacity_least_multiple (fun _ => true) _ 0%nat rs arr' k' E Hin).
Defined.

(** ** Releasing an array *)

(** Extra X2.  Whatever was pushed on an array as initialised and whatever
    the allocator refused, releasing the array is defined and frees each
    copy made by a push that returned [true] exactly once, in the order of
    the pushes, then the buffer; nothing is freed when no push returned
    [true].  The record is left as initialised, so that releasing it again
    frees nothing. *)
Theorem release_frees_each_copy_once mem_ok es k :
  exists rs arr' k',
    push_seq mem_ok empty_array es k = Some ((rs, arr'), k')
    /\ free_dynamic_array arr'
       = Some (if bool_decide (true ∈ rs)
               then (FreeString <$> kept es rs) ++ [FreeVector]
               else [],
               empty_array)
    /\ free_dynamic_array empty_array = Some ([], empty_array).
Proof.
  destruct (push_seq_valid mem_ok es empty_array [] k) as (rs & arr' & k' & Hs & _);
    [by left|].
  exists rs, arr', k'. split; [assumption|]. split; [|reflexivity].
  destruct (push_seq_tight mem_ok es empty_array [] k rs arr' k') as (_ & _ & Ht & Hn);
    [by left | by left | assumption |].
  case_bool_decide as Hin.
  - destruct (Ht Hin) as [_ (rest & He & _)]. cbn [app] in He.
    unfold free_dynamic_array. rewrite He, free_strvec_terminated. reflexivity.
  - by rewrite (Hn Hin).
Qed.

(** ** Reading the input line by line *)

Lemma read_record_line a b :
  lf_free a = true ->
  read_record LF (a +:+ String LF b) = (a +:+ String LF "", b).
Proof.
  induction a as [|c a IH]; intros Hf.
  - reflexivity.
  - cbn [lf_free] in Hf. apply andb_true_iff in Hf as [Hc Hf]. apply negb_true_iff in Hc.
    rewrite !append_cons. cbn [read_record]. rewrite Hc, (IH Hf). reflexivity.
Qed.

Lemma read_record_last a :
  lf_free a = true -> read_record LF a = (a, EmptyString).
Proof.
  induction a as [|c a IH]; intros Hf; [reflexivity|].
  cbn [lf_free] in Hf. apply andb_true_iff in Hf as [Hc Hf]. apply negb_true_iff in Hc.
  cbn [read_record]. rewrite Hc, (IH Hf). reflexivity.
Qed.

Lemma chomp_line a : lf_free a = true -> chomp (a +:+ String LF "") = a.
Proof.
  induction a as [|c a IH]; intros Hf; [reflexivity|].
  cbn [lf_free] in Hf. apply andb_true_iff in Hf as [Hc Hf].
  specialize (IH Hf). rewrite append_cons.
  destruct a as [|d a]; [reflexivity|].
  rewrite append_cons in *. cbn [chomp] in *. by rewrite IH.
Qed.

Lemma chomp_last a : lf_free a = true -> chomp a = a.
Proof.
  induction a as [|c a IH]; intros Hf; [reflexivity|].
  cbn [lf_free] in Hf. apply andb_true_iff in Hf as [Hc Hf]. apply negb_true_iff in Hc.
  specialize (IH Hf). destruct a as [|d a]; cbn [chomp] in *; [by rewrite Hc|].
  by rewrite IH.
Qed.

Lemma records_line a b :
  lf_free a = true -> records (a +:+ String LF b) = a :: records b.
Proof.
  intros Hf. rewrite records_unfold. unfold getdelim.
  destruct (a +:+ String LF b) eqn:E; [destruct a; discriminate|]. rewrite <- E.
  rewrite read_record_line, chomp_line by assumption. reflexivity.
Qed.

Lemma records_last a :
  lf_free a = true -> a <> EmptyString -> records a = [a].
Proof.
  intros Hf Hne. rewrite records_unfold. unfold getdelim.
  destruct a as [|c a]; [done|].
  rewrite read_record_last, chomp_last by assumption.
  rewrite records_unfold. reflexivity.
Qed.

(** Extra X3.  The loop reads back the records an input was made of: for
    records without a newline, each closed by a newline, it sees exactly
    these records, the empty ones too; and an input cut off in its last
    record, with no newline at the end, still gives that record. *)
Theorem records_of_unlines ls a :
  Forall (fun l => lf_free l = true) ls ->
  lf_free a = true ->
  records (unlines ls) = ls
  /\ (a <> EmptyString -> records (unlines ls +:+ a) = ls ++ [a])
  /\ records (unlines ls +:+ EmptyString) = ls.
Proof.
  intros Hls Ha. induction Hls as [|l ls Hl Hls IH].
  - cbn [unlines]. split; [by rewrite records_unfold|]. split.
    + intros Hne. by apply records_last.
    + by rewrite records_unfold.
  - destruct IH as (IH1 & IH2 & IH3). cbn [unlines]. split; [|split].
    + by rewrite records_line, IH1.
    + intros Hne. rewrite append_assoc, append_cons, records_line, IH2 by assumption.
      reflexivity.
    + rewrite append_assoc, append_cons, records_line, IH3 by assumption. reflexivity.
Qed.

Lemma records_of_unlines_witness :
  records (unlines ["user=alice"; ""; "# c"]%string) = ["user=alice"; ""; "# c"]%string
  /\ ("argv=ls"%string <> EmptyString ->
      records (unlines ["user=alice"; ""; "# c"]%string +:+ "argv=ls")
      = ["user=alice"; ""; "# c"]%string ++ ["argv=ls"%string])
  /\ records (unlines ["user=alice"; ""; "# c"]%string +:+ EmptyString)
     = ["user=alice"; ""; "# c"]%string.
Proof.
  apply records_of_unlines; [repeat constructor | reflexivity].
Defined.

(** ** The keys of the loop *)

Lemma append_clash k1 : forall k2 r1 r2,
  k1 +:+ r1 = k2 +:+ r2 -> clash k1 k2 = true.
Proof.
  unfold clash. induction k1 as [|c k1 IH]; intros [|d k2] r1 r2 E; try reflexivity.
  rewrite !append_cons in E. injection E as -> E.
  cbn [String.prefix]. destruct (ascii_dec d d) as [_|Hn]; [|by destruct Hn].
  by apply (IH k2 r1 r2).
Qed.

Lemma keys_apart :
  Forall (fun k1 => Forall (fun k2 => clash k1 k2 = true -> k1 = k2) keys) keys.
Proof. apply (bool_decide_unpack _). vm_compute. exact I. Qed.

(** Extra X4.  No key of the loop is the start of another one, so a line
    that passes the test for one key fails the test for every other key:
    the order in which the loop makes its 21 tests does not change where a
    line goes. *)
Theorem one_key_per_line line k1 k2 :
  k1 ∈ keys -> k2 ∈ keys -> k1 <> k2 ->
  has_key line k1 = true -> has_key line k2 = false.
Proof.
  intros H1 H2 Hne E1. destruct (has_key line k2) eqn:E2; [|reflexivity].
  destruct Hne.
  pose proof (proj1 (Forall_forall _ _) keys_nul_free k1 H1) as N1.
  pose proof (proj1 (Forall_forall _ _) keys_nul_free k2 H2) as N2.
  destruct (has_key_prefix k1 N1 line E1) as [r1 ->].
  destruct (has_key_prefix k2 N2 _ E2) as [r2 E].
  pose proof (proj1 (Forall_forall _ _) keys_apart k1 H1) as F.
  apply (proj1 (Forall_forall _ _) F k2 H2). by eapply append_clash.
Qed.

Lemma one_key_per_line_witness : has_key "sudoers_uid=0" "uid=" = false.
Proof.
  apply (one_key_per_line "sudoers_uid=0" "sudoers_uid=" "uid=");
    [in_keys | in_keys | discriminate | reflexivity].
Defined.

Lemma cstring_idem s : cstring (cstring s) = cstring s.
Proof.
  induction s as [|c s IH]; [reflexivity|]. cbn [cstring].
  destruct (Ascii.eqb c NUL) eqn:E; [reflexivity|]. cbn [cstring]. by rewrite E, IH.
Qed.

Lemma first_byte_cstring s : first_byte (cstring s) = first_byte s.
Proof.
  destruct s as [|c s]; [reflexivity|]. cbn [cstring first_byte].
  destruct (Ascii.eqb_spec c NUL) as [->|_]; reflexivity.
Qed.

Lemma strncmp_cstring n : forall s1 s2,
  strncmp (cstring s1) s2 n = strncmp s1 s2 n.
Proof.
  induction n as [|n IH]; intros s1 s2; [reflexivity|].
  rewrite !strncmp_S, first_byte_cstring.
  destruct s1 as [|c s1]; [reflexivity|]. cbn [cstring first_byte].
  destruct (Ascii.eqb c NUL) eqn:E.
  - apply Ascii.eqb_eq in E as ->.
    destruct (Ascii.eqb NUL (first_byte s2)); reflexivity.
  - destruct s2 as [|d s2]; [reflexivity|]. by rewrite IH.
Qed.

Lemma push_cstring mem_ok arr s :
  push mem_ok arr (Some (cstring s)) = push mem_ok arr (Some s).
Proof. unfold push, strdup. by rewrite cstring_idem. Qed.

(** The loop body pushes a line to the array [route] gives for it. *)
Lemma classify_route mem_ok line c :
  classify mem_ok line c
  = match route line with
    | None => ret c
    | Some cat => push_to mem_ok cat (Some line) c
    end.
Proof.
  unfold classify, route. destruct (_ || _); [reflexivity|].
  unfold table. cbn [List.find fst snd].
  repeat match goal with
  | |- context [has_key line ?k] => destruct (has_key line k); [reflexivity|]
  end.
  reflexivity.
Qed.

Lemma route_cstring line : route (cstring line) = route line.
Proof.
  unfold route, has_key. rewrite first_byte_cstring.
  destruct (_ || _); [reflexivity|]. do 3 f_equal.
  induction table as [|kc t IH]; [reflexivity|].
  cbn [List.find]. by rewrite strncmp_cstring, IH.
Qed.

(** Extra X5.  The loop body sees a line only up to its first NUL byte:
    the tests and the copy pushed are those of the line cut there. *)
Theorem classify_up_to_nul mem_ok line c :
  classify mem_ok line c = classify mem_ok (cstring line) c.
Proof.
  rewrite !classify_route, route_cstring.
  destruct (route line) as [cat|]; [|reflexivity].
  unfold push_to. by rewrite push_cstring.
Qed.

(** ** What the loop collects *)

(** The loop over the stream is the loop over its records. *)
Lemma classify_all_lines mem_ok fp : forall c k,
  classify_all mem_ok fp c k = classify_lines mem_ok (records fp) c k.
Proof.
  remember (String.length fp) as n eqn:Hn. revert fp Hn.
  induction n as [n IH] using lt_wf_ind. intros fp -> c k.
  rewrite classify_all_unfold, records_unfold.
  destruct (getdelim LF fp) as [[line rest]|] eqn:E; [|reflexivity].
  cbn [classify_lines]. unfold bind.
  destruct (classify mem_ok (chomp line) c k) as [[c1 k1]|]; [|reflexivity].
  apply (IH (String.length rest) (read_record_shorter _ _ _ _ E) rest eq_refl).
Qed.

Lemma records_length fp : (length (records fp) <= String.length fp)%nat.
Proof.
  remember (String.length fp) as n eqn:Hn. revert fp Hn.
  induction n as [n IH] using lt_wf_ind. intros fp ->.
  rewrite records_unfold.
  destruct (getdelim LF fp) as [[line rest]|] eqn:E; [|cbn; lia].
  pose proof (read_record_shorter _ _ _ _ E) as Hlt.
  specialize (IH (String.length rest) Hlt rest eq_refl). cbn [length]. lia.
Qed.

Section Granted.
Variable mem_ok : oracle.
Hypothesis granted : forall k, mem_ok k = true.

(** With every request granted, a push on an array of sensible length
    returns [true]. *)
Lemma push_granted arr l e k :
  valid arr l -> arr = empty_array \/ tight arr -> len arr < 2 ^ 60 ->
  exists arr' k',
    push mem_ok arr e k = Some ((true, arr'), k')
    /\ terminated arr' (l ++ copied e) /\ tight arr'.
Proof.
  intros Hv Ht Hl.
  destruct (push_valid mem_ok arr l e k Hv) as (b & arr' & k' & Hp & _ & Hb).
  destruct b.
  - exists arr', k'. split; [assumption|]. split; [assumption|].
    by eapply push_tight.
  - destruct Hb as [_ [(j & _ & Hj) | Ho]]; [by rewrite granted in Hj|].
    exfalso. revert Ho. unfold SIZE_MAX, sizeof_ptr.
    destruct Hv as [[-> _] | Hv]; [cbn; lia|].
    destruct Ht as [-> | Ht]; [cbn; lia|].
    pose proof (terminated_bounds _ _ Hv) as [Hb _]. unfold tight in Ht.
    pose proof (Z.div_mod (len arr) 128). pose proof (Z.mod_pos_bound (len arr) 128). lia.
Qed.

Lemma routed_cons cat l ls :
  routed cat (l :: ls)
  = (if decide (route l = Some cat) then [cstring l] else []) ++ routed cat ls.
Proof. unfold routed. rewrite filter_cons. by destruct (decide _). Qed.

Lemma classify_lines_granted ls : forall c L k,
  holds c L ->
  (forall cat, Z.of_nat (length (L cat) + length ls) < 2 ^ 60) ->
  exists c' k',
    classify_lines mem_ok ls c k = Some (c', k')
    /\ holds c' (fun cat => L cat ++ routed cat ls)
    /\ forall cat,
         (routed cat ls = [] -> get cat c' = get cat c)
         /\ (routed cat ls <> [] -> terminated (get cat c') (L cat ++ routed cat ls)).
Proof.
  induction ls as [|l ls IH]; intros c L k Hh Hn.
  - exists c, k. split; [reflexivity|]. split.
    + intros cat. unfold routed. cbn. rewrite app_nil_r. apply Hh.
    + intros cat. split; [done|]. by intros [].
  - cbn [classify_lines]. unfold bind. rewrite classify_route.
    destruct (route l) as [cat0|] eqn:Er.
    + (* the line is pushed to [cat0] *)
      destruct (Hh cat0) as [Hv0 Ht0].
      destruct (push_granted (get cat0 c) (L cat0) (Some l) k Hv0 Ht0)
        as (arr1 & k1 & Hp & Hterm & Htight).
      { destruct Hv0 as [[-> _] | (r & _ & Hl & _)]; [cbn; lia|].
        rewrite Hl. specialize (Hn cat0). lia. }
      unfold push_to, bind, ret. rewrite Hp. cbn [snd].
      set (c1 := set cat0 arr1 c).
      set (L1 := fun cat => if decide (cat0 = cat) then L cat ++ [cstring l] else L cat).
      assert (holds c1 L1) as Hh1.
      { intros cat. unfold c1, L1. destruct (decide (cat0 = cat)) as [<-|Hne].
        - rewrite get_set_eq. split; [by right | by right].
        - rewrite get_set_ne by congruence. apply Hh. }
      destruct (IH c1 L1 k1 Hh1) as (c' & k' & Hc & Hh' & Hr).
      { intros cat. unfold L1. specialize (Hn cat). cbn [length] in Hn.
        destruct (decide _); rewrite ?length_app; cbn [length]; lia. }
      exists c', k'. split; [assumption|].
      assert (forall cat, L1 cat ++ routed cat ls = L cat ++ routed cat (l :: ls)) as EL.
      { intros cat. rewrite routed_cons. unfold L1.
        destruct (decide (cat0 = cat)) as [<-|Hne].
        - rewrite decide_True by assumption. by rewrite <- (assoc_L (++)).
        - rewrite decide_False by congruence. reflexivity. }
      split.
      * intros cat. rewrite <- EL. apply Hh'.
      * intros cat. rewrite <- EL. destruct (Hr cat) as [Hr1 Hr2].
        rewrite routed_cons. destruct (decide (route l = Some cat)) as [E|E].
        -- assert (cat0 = cat) as <- by congruence.
           split; [discriminate|]. intros _.
           destruct (decide (routed cat0 ls = [])) as [En|En].
           ++ rewrite (Hr1 En). unfold c1, L1. rewrite get_set_eq, En, app_nil_r.
              by rewrite decide_True.
           ++ by apply Hr2.
        -- assert (cat0 <> cat) as Hne by congruence.
           cbn [app]. split.
           ++ intros En. rewrite (Hr1 En). unfold c1. apply get_set_ne. congruence.
           ++ apply Hr2.
    + (* the line is skipped *)
      unfold ret.
      destruct (IH c L k Hh) as (c' & k' & Hc & Hh' & Hr).
      { intros cat. specialize (Hn cat). cbn [length] in Hn. lia. }
      exists c', k'. split; [assumption|].
      assert (forall cat, routed cat (l :: ls) = routed cat ls) as ER.
      { intros cat. rewrite routed_cons, decide_False by congruence. reflexivity. }
      split.
      * intros cat. rewrite ER. apply Hh'.
      * intros cat. rewrite ER. apply Hr.
Qed.

(** Extra X6.  When the allocator grants every request, the arrays built
    from an input hold, each in the order of the input, the copies of the
    records that belong to them, cut at their first NUL, the key left in
    place; user_info and settings are terminated vectors even when no
    record belongs to them, the other three are still NULL then. *)
Theorem build_collects data :
  Z.of_nat (String.length data) < 2 ^ 60 ->
  exists c k,
    build mem_ok data 0%nat = Some (c, k)
    /\ forall cat,
         (routed cat (records data) <> [] \/ cat = UserInfo \/ cat = Settings ->
          terminated (get cat c) (routed cat (records data)))
         /\ (routed cat (records data) = [] -> cat <> UserInfo -> cat <> Settings ->
             get cat c = empty_array).
Proof.
  intros Hlen. unfold build, bind.
  destruct (push_granted empty_array [] None 0%nat) as (a1 & k1 & Hp1 & Ht1 & Hg1);
    [by left | by left | cbn; lia |].
  destruct (push_granted empty_array [] None k1) as (a2 & k2 & Hp2 & Ht2 & Hg2);
    [by left | by left | cbn; lia |].
  unfold push_to at 1, bind, ret. cbn [get start user_info]. rewrite Hp1. cbn [snd].
  unfold push_to, bind, ret. cbn [get set settings start]. rewrite Hp2. cbn [snd set].
  set (c2 := mk_collections _ _ _ _ _).
  rewrite classify_all_lines.
  destruct (classify_lines_granted (records data) c2 (fun _ => []) k2)
    as (c' & k' & Hc & _ & Hr).
  { intros cat. unfold c2. destruct cat; cbn [get plugin_args settings user_info argv env_add];
      split; first [by left | by right]. }
  { intros cat. pose proof (records_length data). cbn [length]. lia. }
  exists c', k'. split; [assumption|]. intros cat. destruct (Hr cat) as [Hr1 Hr2].
  cbn [app] in Hr2. split.
  - intros H. destruct (decide (routed cat (records data) = [])) as [En|En]; [|by apply Hr2].
    rewrite (Hr1 En), En. destruct H as [H | [-> | ->]]; [done | exact Ht1 | exact Ht2].
  - intros En H1 H2. rewrite (Hr1 En). by destruct cat.
Qed.
End Granted.

Lemma build_collects_witness :
  let data := "user=alice" +:+ nl +:+ "# no" +:+ nl +:+ "argv=ls" +:+ nl +:+ "uid=0" in
  exists c k,
    build (fun _ => true) data 0%nat = Some (c, k)
    /\ forall cat,
         (routed cat (records data) <> [] \/ cat = UserInfo \/ cat = Settings ->
          terminated (get cat c) (routed cat (records data)))
         /\ (routed cat (records data) = [] -> cat <> UserInfo -> cat <> Settings ->
             get cat c = empty_array).
Proof.
  intros data. apply (build_collects (fun _ => true) (fun _ => eq_refl) data). reflexivity.
Defined.

Example routed_example :
  let recs := records ("user=alice" +:+ nl +:+ "# no" +:+ nl +:+ "argv=ls" +:+ nl +:+ "uid=0") in
  routed UserInfo recs = ["user=alice"; "uid=0"]%string
  /\ routed Argv recs = ["argv=ls"%string]
  /\ routed Settings recs = [] /\ routed PluginArgs recs = [].
Proof. vm_compute. repeat split. Qed.

(** ** What the plugin is passed, and the cleanup *)

Lemma strvec_terminated arr l : terminated arr l -> strvec (entries arr) = Some l.
Proof. intros (rest & -> & _). cbn. apply free_strvec_terminated. Qed.

Lemma routed_length cat ls : (length (routed cat ls) <= length ls)%nat.
Proof. unfold routed. rewrite length_fmap. apply length_filter. Qed.

Lemma int_small z : 0 <= z < 2 ^ 31 -> int z = z.
Proof. intros H. unfold int. rewrite Z.mod_small by lia. lia. Qed.

Section Passes.
Variable mem_ok : oracle.
Hypothesis granted : forall k, mem_ok k = true.
Variable P : policy_plugin.

Lemma vector_of_built data c cat :
  (routed cat (records data) <> [] \/ cat = UserInfo \/ cat = Settings ->
   terminated (get cat c) (routed cat (records data))) ->
  (routed cat (records data) = [] -> cat <> UserInfo -> cat <> Settings ->
   get cat c = empty_array) ->
  vector_of cat (records data) (entries (get cat c)).
Proof.
  intros H1 H2. unfold vector_of.
  destruct (routed cat (records data)) as [|x ls] eqn:E.
  - case_bool_decide as Hc.
    + apply strvec_terminated. apply H1. by right.
    + rewrite H2; [reflexivity | reflexivity | tauto | tauto].
  - apply strvec_terminated. apply H1. by left.
Qed.

(** Extra X7.  When the allocator grants every request, the plugin is
    handed the records of the input and nothing else: open gets the
    settings, user_info and plugin_args records (NULL for plugin_args when
    there are none); when open returns 1, check_policy gets the argv
    records with their count, key and all, or the single default command
    when there are none, and the env records (NULL when there are none). *)
Theorem run_passes_records data :
  Z.of_nat (String.length data) < 2 ^ 31 ->
  exists events s u p,
    LLVMFuzzerTestOneInput mem_ok true P data = Some (0, events)
    /\ opens events = [(s, u, p)]
    /\ vector_of Settings (records data) s
    /\ vector_of UserInfo (records data) u
    /\ vector_of PluginArgs (records data) p
    /\ (policy_open P s u p = 1 ->
        exists a e,
          checks events = [(Z.of_nat (length (command_line (records data))), a, e)]
          /\ strvec a = Some (command_line (records data))
          /\ vector_of EnvAdd (records data) e).
Proof.
  intros Hlen.
  destruct (build_collects mem_ok granted data) as (c & k & Hb & Hc); [lia|].
  destruct (run_calls mem_ok P data) as (c' & k' & events & Hb' & _ & Hr & Ho & _ & Hone & _).
  rewrite Hb in Hb'. injection Hb' as <- <-.
  assert (forall cat, vector_of cat (records data) (entries (get cat c))) as Hvec.
  { intros cat. destruct (Hc cat). by apply vector_of_built. }
  exists events, (entries (settings c)), (entries (user_info c)), (entries (plugin_args c)).
  split; [assumption|]. split; [assumption|].
  split; [apply (Hvec Settings)|]. split; [apply (Hvec UserInfo)|].
  split; [apply (Hvec PluginArgs)|].
  intros Hres. destruct (Hone Hres) as (c1 & k1 & Hp & Hch & _).
  destruct (Hc Argv) as [Ha1 Ha2]. cbn [get] in Ha1, Ha2.
  unfold command_line.
  destruct (routed Argv (records data)) as [|x ls] eqn:E.
  - (* no argv record: the default command *)
    rewrite Ha2 in Hp by done. cbn [len empty_array Z.eqb] in Hp.
    destruct (push_default_command mem_ok c k (Ha2 eq_refl ltac:(done) ltac:(done))
                (granted _) (granted _)) as (c1' & k1' & junk & Hp' & He & Hl & Henv).
    rewrite Hp' in Hp. injection Hp as <- <-.
    rewrite Hl, He, Henv in Hch.
    eexists _, _. split; [exact Hch|]. split; [reflexivity | apply (Hvec EnvAdd)].
  - assert (terminated (argv c) (x :: ls)) as Hterm by (apply Ha1; by left).
    clear Ha1. rename Hterm into Ha1.
    pose proof Ha1 as (rest & _ & Hl & _).
    assert ((len (argv c) =? 0) = false) as E0 by (apply Z.eqb_neq; rewrite Hl; cbn; lia).
    rewrite E0 in Hp. injection Hp as <- <-.
    eexists _, _. split; [|split; [by apply strvec_terminated | apply (Hvec EnvAdd)]].
    rewrite Hch. do 2 f_equal. f_equal. rewrite Hl. apply int_small.
    pose proof (routed_length Argv (records data)). pose proof (records_length data).
    rewrite E in *. lia.
Qed.
End Passes.

Lemma run_passes_records_witness :
  let P := {| policy_open := fun _ _ _ => 1; policy_close := true |} in
  let data := "user=alice" +:+ nl +:+ "argv=ls" +:+ nl +:+ "argv=-l" in
  exists events s u p,
    LLVMFuzzerTestOneInput (fun _ => true) true P data = Some (0, events)
    /\ opens events = [(s, u, p)]
    /\ vector_of Settings (records data) s
    /\ vector_of UserInfo (records data) u
    /\ vector_of PluginArgs (records data) p
    /\ (policy_open P s u p = 1 ->
        exists a e,
          checks events = [(Z.of_nat (length (command_line (records data))), a, e)]
          /\ strvec a = Some (command_line (records data))
          /\ vector_of EnvAdd (records data) e).
Proof.
  intros P data. apply (run_passes_records (fun _ => true) (fun _ => eq_refl) P data).
  reflexivity.
Defined.

Example command_line_example :
  command_line (records ("user=alice" +:+ nl +:+ "argv=ls" +:+ nl +:+ "argv=-l"))
  = ["argv=ls"; "argv=-l"]%string.
Proof. reflexivity. Qed.



(** ** The conversation callback: what it leaves alone *)

(** A write touches the stream it is made on and [errno], nothing else. *)
Lemma with_file_frame fp f w :
  (fp = stdout -> err (with_file fp f w) = err w)
  /\ (fp = stderr -> out (with_file fp f w) = out w).
Proof. destruct fp; cbn; repeat split; congruence. Qed.

Lemma short_frame fp asked got f w :
  (fp = stdout -> err (short asked got (with_file fp f w)) = err w)
  /\ (fp = stderr -> out (short asked got (with_file fp f w)) = out w).
Proof.
  destruct (short_streams asked got (with_file fp f w)) as [-> ->].
  apply with_file_frame.
Qed.

Lemma conv_message_frame T m w f w' :
  conv_message T m w = (f, w') ->
  (is_error T m = false -> err w' = err w)
  /\ (is_info T m = false -> out w' = out w)
  /\ (is_error T m = false -> is_info T m = false -> w' = w)
  /\ (f = Next \/ f = Return (-1)).
Proof.
  unfold conv_message, is_error, is_info. cbn zeta.
  set (t := Z.land (msg_type m) 255).
  destruct (_ || _ || _); [intros [= <- <-]; auto|].
  destruct (Z.eqb_spec t (SUDO_CONV_ERROR_MSG T)) as [Ee|Ee]; cbn [orb].
  - destruct (msg m) as [text|]; [|intros [= <- <-]; auto].
    destruct (strlen text =? 0); [intros [= <- <-]; auto|].
    unfold fwrite, fputc.
    destruct (accept (file_of stderr w) (cstring text)) as [n f1].
    pose proof (proj2 (short_frame stderr (String.length (cstring text)) n f1 w) eq_refl) as F1.
    set (w1 := short _ n _) in *.
    destruct (Z.of_nat n =? 0); [intros [= <- <-]; split_and!; auto; discriminate|].
    destruct (accept _ _) as [n2 f2].
    pose proof (proj2 (short_frame stderr 1 n2 f2 w1) eq_refl) as F2.
    destruct (_ =? EOF); intros [= <- <-]; split_and!; auto; try discriminate;
      intros _; exact (eq_trans F2 F1).
  - destruct (Z.eqb_spec t (SUDO_CONV_INFO_MSG T)) as [Ei|Ei]; [|intros [= <- <-]; auto].
    destruct (msg m) as [text|]; [|intros [= <- <-]; auto].
    destruct (strlen text =? 0); [intros [= <- <-]; auto|].
    unfold fwrite, fputc.
    destruct (accept (file_of stdout w) (cstring text)) as [n f1].
    pose proof (proj1 (short_frame stdout (String.length (cstring text)) n f1 w) eq_refl) as F1.
    set (w1 := short _ n _) in *.
    destruct (Z.of_nat n =? 0); [intros [= <- <-]; split_and!; auto; discriminate|].
    destruct (accept _ _) as [n2 f2].
    pose proof (proj1 (short_frame stdout 1 n2 f2 w1) eq_refl) as F2.
    destruct (_ =? EOF); intros [= <- <-]; split_and!; auto; try discriminate;
      intros _; exact (eq_trans F2 F1).
Qed.

Lemma conv_loop_frame T msgs : forall todo n w r w',
  conv_loop T todo n msgs w = Some (r, w') ->
  (r = 0 \/ r = -1)
  /\ (Forall (fun m => is_error T m = false) msgs -> err w' = err w)
  /\ (Forall (fun m => is_info T m = false) msgs -> out w' = out w)
  /\ (Forall (fun m => is_error T m = false) msgs ->
      Forall (fun m => is_info T m = false) msgs -> w' = w).
Proof.
  intros todo. induction todo as [|todo IH]; intros n w r w'.
  - intros [= <- <-]. auto.
  - cbn [conv_loop]. destruct (msgs !! n) as [m|] eqn:Hm; [|discriminate].
    pose proof (list_elem_of_lookup_2 _ _ _ Hm) as Hin.
    destruct (conv_message T m w) as [[|r1] w1] eqn:E.
    + intros H. apply IH in H as (H2 & H3 & H4 & H5).
      apply conv_message_frame in E as (E2 & E3 & E5 & _).
      split; [assumption|]. split_and!.
      * intros HF. rewrite (H3 HF). apply E2.
        by apply (proj1 (Forall_forall _ _) HF).
      * intros HF. rewrite (H4 HF). apply E3.
        by apply (proj1 (Forall_forall _ _) HF).
      * intros HF1 HF2. rewrite (H5 HF1 HF2).
        apply E5; [by apply (proj1 (Forall_forall _ _) HF1)
                  | by apply (proj1 (Forall_forall _ _) HF2)].
    + intros [= <- <-].
      apply conv_message_frame in E as (E2 & E3 & E5 & [?|E4]); [discriminate|].
      injection E4 as ->.
      split; [by right|]. split_and!.
      * intros HF. apply E2. by apply (proj1 (Forall_forall _ _) HF).
      * intros HF. apply E3. by apply (proj1 (Forall_forall _ _) HF).
      * intros HF1 HF2.
        apply E5; [by apply (proj1 (Forall_forall _ _) HF1)
                  | by apply (proj1 (Forall_forall _ _) HF2)].
Qed.

(** Extra X10.  An invocation of the conversation callback returns 0 or
    -1; it leaves standard error as it was when no message is an error
    message, and standard output as it was when no message is an
    informational message.  When no message is of either kind it calls
    nothing that writes: both streams and [errno] are as they were. *)
Theorem conversation_frame T num_msgs msgs w r w' :
  fuzz_conversation T num_msgs msgs w = Some (r, w') ->
  (r = 0 \/ r = -1)
  /\ (Forall (fun m => is_error T m = false) msgs -> err w' = err w)
  /\ (Forall (fun m => is_info T m = false) msgs -> out w' = out w)
  /\ (Forall (fun m => is_error T m = false) msgs ->
      Forall (fun m => is_info T m = false) msgs -> w' = w).
Proof. apply conv_loop_frame. Qed.

Lemma conversation_frame_witness :
  let w' := {| out := mk_FILE ("hello" +:+ nl) None; err := err quiet; errno := 0 |} in
  ((0 : Z) = 0 \/ (0 : Z) = -1)
  /\ (Forall (fun m => is_error sudo_plugin_h m = false)
        [mk_msg 4 (Some "hello"%string)] -> err w' = err quiet)
  /\ (Forall (fun m => is_info sudo_plugin_h m = false)
        [mk_msg 4 (Some "hello"%string)] -> out w' = out quiet)
  /\ (Forall (fun m => is_error sudo_plugin_h m = false)
        [mk_msg 4 (Some "hello"%string)] ->
      Forall (fun m => is_info sudo_plugin_h m = false)
        [mk_msg 4 (Some "hello"%string)] -> w' = quiet).
Proof.
  intros w'.
  apply (conversation_frame sudo_plugin_h 1 [mk_msg 4 (Some "hello"%string)] quiet 0 w').
  reflexivity.
Defined.

(** ** The conversation callback: where it stops *)

(** A message that is neither informational nor an error message ends
    the invocation, and nothing is written for it. *)
Lemma conv_message_rejects T m w :
  is_info T m || is_error T m = false -> conv_message T m w = (Return (-1), w).
Proof.
  unfold is_info, is_error, conv_message. cbn zeta. intros H.
  rewrite (orb_comm (_ =? SUDO_CONV_ERROR_MSG T)), H.
  by destruct (_ || _ || _).
Qed.

Section Stops.
Variable T : conv_types.
Hypothesis HT : distinct_labels T.

Lemma conv_list_stops msgs1 m msgs2 : forall w,
  unlimited w ->
  Forall (fun m => is_info T m || is_error T m = true) msgs1 ->
  is_info T m || is_error T m = false ->
  exists w',
    conv_list T (msgs1 ++ m :: msgs2) w = (-1, w')
    /\ written (out w') = written (out w) +:+ printed (is_info T) msgs1
    /\ written (err w') = written (err w) +:+ printed (is_error T) msgs1.
Proof.
  induction msgs1 as [|m1 msgs1 IH]; intros w Hu HF Hm.
  - exists w. cbn [app conv_list printed]. rewrite conv_message_rejects by assumption.
    by rewrite !append_nil_r.
  - apply Forall_cons in HF as [H1 HF].
    destruct (conv_message_relay T HT m1 w Hu H1) as (w1 & E & Hu1 & Ho1 & He1).
    destruct (IH w1 Hu1 HF Hm) as (w2 & E2 & Ho2 & He2).
    exists w2. cbn [app conv_list printed]. rewrite E, E2. split; [reflexivity|].
    by rewrite Ho2, He2, Ho1, He1, !append_assoc.
Qed.

(** Extra X11.  The conversation callback stops at the first message that
    is neither informational nor an error message, be it a prompt or a
    type it does not know: it returns -1, the messages before it have been
    written, the messages after it are never looked at. *)
Theorem conversation_stops_at_first_other msgs1 m msgs2 w :
  unlimited w ->
  Forall (fun m => is_info T m || is_error T m = true) msgs1 ->
  is_info T m || is_error T m = false ->
  exists w',
    fuzz_conversation T (Z.of_nat (length (msgs1 ++ m :: msgs2)))
      (msgs1 ++ m :: msgs2) w = Some (-1, w')
    /\ written (out w') = written (out w) +:+ printed (is_info T) msgs1
    /\ written (err w') = written (err w) +:+ printed (is_error T) msgs1.
Proof.
  intros Hu HF Hm. rewrite fuzz_conversation_list.
  destruct (conv_list_stops msgs1 m msgs2 w Hu HF Hm) as (w' & -> & Ho & He).
  by exists w'.
Qed.
End Stops.

Lemma conversation_stops_at_first_other_witness :
  exists w',
    fuzz_conversation sudo_plugin_h 3
      ([mk_msg 4 (Some "hello"%string)] ++ mk_msg 0 (Some "what"%string)
         :: [mk_msg 3 (Some "late"%string)]) quiet = Some (-1, w')
    /\ written (out w') = "" +:+ ("hello" +:+ nl) +:+ ""
    /\ written (err w') = "" +:+ "" +:+ "".
Proof.
  assert (distinct_labels sudo_plugin_h) as HT.
  { apply (bool_decide_unpack _). vm_compute. exact I. }
  apply (conversation_stops_at_first_other sudo_plugin_h HT
           [mk_msg 4 (Some "hello"%string)] (mk_msg 0 (Some "what"%string))
           [mk_msg 3 (Some "late"%string)] quiet).
  - split; reflexivity.
  - repeat constructor.
  - reflexivity.
Defined.

Lemma length_append s t : String.length (s +:+ t) = (String.length s + String.length t)%nat.
Proof. induction s as [|c s IH]; [reflexivity|]. rewrite append_cons. cbn. by rewrite IH. Qed.

Lemma substring_0_0 s : String.substring 0 0 s = EmptyString.
Proof. by destruct s. Qed.

Lemma substring_append_l n : forall s t,
  (n <= String.length s)%nat ->
  String.substring 0 n (s +:+ t) = String.substring 0 n s.
Proof.
  induction n as [|n IH]; intros s t Hn.
  - by rewrite !substring_0_0.
  - destruct s as [|c s]; [cbn in Hn; lia|]. rewrite append_cons. cbn [String.substring].
    rewrite IH; [reflexivity | cbn in Hn; lia].
Qed.

Section Fits.
Variable T : conv_types.
Hypothesis HT : distinct_labels T.

(** Extra X12.  For one informational or error message with a text that
    is not empty, on a stream that takes [r] more bytes: the callback
    returns 0 exactly when the text and the newline fit; otherwise it
    returns -1, and the bytes that did fit have been written all the same
    (with room for the text but not for the newline, the whole text). *)
Theorem conversation_short_write m text w r :
  is_info T m || is_error T m = true ->
  msg m = Some text -> cstring text <> EmptyString ->
  let fp := if is_error T m then stderr else stdout in
  let line := cstring text +:+ nl in
  room (file_of fp w) = Some r ->
  exists w',
    fuzz_conversation T 1 [m] w
    = Some (if (String.length line <=? r)%nat then 0 else -1, w')
    /\ written (file_of fp w')
       = written (file_of fp w) +:+ String.substring 0 (Nat.min r (String.length line)) line
    /\ room (file_of fp w') = Some (r - Nat.min r (String.length line))%nat.
Proof.
  intros Hk Hm Hne fp line Hr.
  destruct (labels_apart T HT) as [Hei Hp].
  change (fuzz_conversation T 1 [m] w)
    with (match conv_message T m w with
          | (Next, w') => Some (0, w')
          | (Return r0, w') => Some (r0, w')
          end).
  unfold conv_message, is_info, is_error in *. cbn zeta.
  set (t := Z.land (msg_type m) 255) in *.
  assert (t = SUDO_CONV_ERROR_MSG T \/ t = SUDO_CONV_INFO_MSG T) as Ht.
  { apply orb_true_iff in Hk as [E%Z.eqb_eq | E%Z.eqb_eq]; auto. }
  destruct (Hp t Ht) as (P1 & P2 & P3).
  rewrite (proj2 (Z.eqb_neq _ _) P1), (proj2 (Z.eqb_neq _ _) P2), (proj2 (Z.eqb_neq _ _) P3).
  cbn [orb]. rewrite (orb_comm (t =? SUDO_CONV_ERROR_MSG T)), Hk, Hm.
  unfold strlen. destruct (cstring text) as [|c s] eqn:Ec; [done|].
  cbn [String.length]. rewrite (proj2 (Z.eqb_neq _ 0)) by lia.
  fold fp. unfold fwrite, fputc, accept. rewrite Hr.
  assert (forall a g f w0, file_of fp (short a g (with_file fp f w0)) = f) as Hget.
  { intros a g f w0. unfold short. destruct (_ <? _)%nat; by destruct fp. }
  rewrite Hget. cbn [room written fmap option_fmap option_map].
  set (s0 := String c s) in *. set (n := Nat.min r (String.length s0)).
  assert (String.length line = S (String.length s0)) as Hline.
  { unfold line, nl. rewrite length_append. cbn. lia. }
  rewrite Hline.
  destruct (Z.eqb_spec (Z.of_nat n) 0) as [En|En].
  - (* nothing fits *)
    assert (r = 0%nat) as -> by (unfold n, s0 in En; cbn [String.length] in En; lia).
    eexists. split; [reflexivity|]. rewrite Hget. cbn [written room].
    rewrite !substring_0_0. split; reflexivity.
  - cbn [String.length].
    destruct (Nat.leb_spec (S (String.length s0)) r) as [Hfit|Hfit].
    + (* text and newline fit *)
      assert (n = String.length s0) as En' by (unfold n; lia).
      replace (Nat.min (r - n) 1) with 1%nat by lia. cbn [Nat.eqb].
      change (code LF =? EOF) with false. cbn iota.
      eexists. split; [reflexivity|]. rewrite Hget. cbn [written room].
      rewrite En', substring_all.
      replace (Nat.min r (S (String.length s0))) with (String.length line) by lia.
      rewrite substring_all. unfold line. rewrite append_assoc.
      split; [reflexivity|]. fold line. rewrite Hline. f_equal. lia.
    + (* the newline does not fit *)
      assert (n = r) as En' by (unfold n; lia).
      replace (Nat.min (r - n) 1) with 0%nat by lia. cbn [Nat.eqb].
      change (EOF =? EOF) with true. cbn iota.
      eexists. split; [reflexivity|]. rewrite Hget. cbn [written room].
      rewrite substring_0_0, append_nil_r, En'.
      replace (Nat.min r (S (String.length s0))) with r by lia.
      unfold line. rewrite substring_append_l by lia.
      split; [reflexivity|]. f_equal. lia.
Qed.
End Fits.

Lemma conversation_short_write_witness :
  exists w',
    fuzz_conversation sudo_plugin_h 1 [mk_msg 4 (Some "hello"%string)]
      {| out := mk_FILE "" (Some 5%nat); err := mk_FILE "" None; errno := 0 |}
    = Some (-1, w')
    /\ written (out w') = "" +:+ "hello"
    /\ room (out w') = Some 0%nat.
Proof.
  assert (distinct_labels sudo_plugin_h) as HT.
  { apply (bool_decide_unpack _). vm_compute. exact I. }
  apply (conversation_short_write sudo_plugin_h HT (mk_msg 4 (Some "hello"%string))
           "hello"
           {| out := mk_FILE "" (Some 5%nat); err := mk_FILE "" None; errno := 0 |} 5%nat);
    [reflexivity | reflexivity | discriminate | reflexivity].
Defined.

(** ** The printf callback and the stubs *)

(** Extra X9.  The printf-style callback writes for two types only.  For
    a type whose low byte is neither the error nor the informational type,
    prompts included, it writes nothing, returns -1 and sets [errno] to
    [EINVAL].  For the other two it leaves the other stream alone; a
    result that is not -1 is the length of the text, all of which has gone
    to standard error for the error type and to standard output for the
    informational type; and that is the result whenever the stream takes
    every byte and the length is one an [int] holds. *)
Theorem printf_dispatch T t text w r w' :
  fuzz_printf T t text w = (r, w') ->
  let b := Z.land t 255 in
  (b <> SUDO_CONV_ERROR_MSG T -> b <> SUDO_CONV_INFO_MSG T ->
   r = -1 /\ w' = set_errno EINVAL w)
  /\ (b = SUDO_CONV_ERROR_MSG T \/ b = SUDO_CONV_INFO_MSG T ->
      let fp := if b =? SUDO_CONV_ERROR_MSG T then stderr else stdout in
      (fp = stdout -> err w' = err w)
      /\ (fp = stderr -> out w' = out w)
      /\ (r = -1
          \/ (r = Z.of_nat (String.length text)
              /\ written (file_of fp w') = written (file_of fp w) +:+ text))
      /\ (room (file_of fp w) = None ->
          Z.of_nat (String.length text) <= INT_MAX ->
          r = Z.of_nat (String.length text))).
Proof.
  unfold fuzz_printf. cbn zeta. set (b := Z.land t 255). intros H. split.
  - intros H1 H2. rewrite (proj2 (Z.eqb_neq _ _) H1), (proj2 (Z.eqb_neq _ _) H2) in H.
    by injection H as <- <-.
  - intros Hb.
    assert ((b =? SUDO_CONV_ERROR_MSG T) || (b =? SUDO_CONV_INFO_MSG T) = true) as E.
    { apply orb_true_iff. destruct Hb as [-> | ->]; rewrite Z.eqb_refl; auto. }
    rewrite E in H. set (fp := if b =? _ then stderr else stdout) in *.
    unfold vfprintf in H. destruct (accept (file_of fp w) text) as [n f] eqn:Ea.
    cbv zeta in H.
    destruct (short_frame fp (String.length text) n f w) as [F1 F2].
    assert (file_of fp (short (String.length text) n (with_file fp f w)) = f) as Hf.
    { unfold short. destruct (_ <? _)%nat; by destruct fp. }
    set (w1 := short _ n _) in *.
    assert (n = String.length text -> written f = written (file_of fp w) +:+ text) as Hw.
    { intros En. revert Ea. unfold accept. intros [= Hn <-]. cbn [written].
      by rewrite Hn, En, substring_all. }
    destruct (Nat.eqb_spec n (String.length text)) as [En|En].
    + destruct (Z.leb_spec (Z.of_nat n) INT_MAX) as [Hi|Hi]; injection H as <- <-.
      * split_and!; try assumption; [|by rewrite En].
        right. split; [by rewrite En|]. rewrite Hf. by apply Hw.
      * split_and!; try assumption; [by left|]. intros _ Hle. lia.
    + injection H as <- <-. split_and!; try assumption; [by left|].
      intros Hr _. revert Ea. unfold accept. rewrite Hr. intros [= Hn _]. congruence.
Qed.

Lemma printf_dispatch_witness :
  let w' := {| out := out quiet; err := mk_FILE "oops" None; errno := 0 |} in
  let b := Z.land (3 + 4096) 255 in
  (b <> SUDO_CONV_ERROR_MSG sudo_plugin_h -> b <> SUDO_CONV_INFO_MSG sudo_plugin_h ->
   (4 : Z) = -1 /\ w' = set_errno EINVAL quiet)
  /\ (b = SUDO_CONV_ERROR_MSG sudo_plugin_h \/ b = SUDO_CONV_INFO_MSG sudo_plugin_h ->
      let fp := if b =? SUDO_CONV_ERROR_MSG sudo_plugin_h then stderr else stdout in
      (fp = stdout -> err w' = err quiet)
      /\ (fp = stderr -> out w' = out quiet)
      /\ ((4 : Z) = -1
          \/ ((4 : Z) = Z.of_nat (String.length "oops")
              /\ written (file_of fp w') = written (file_of fp quiet) +:+ "oops"))
      /\ (room (file_of fp quiet) = None ->
          Z.of_nat (String.length "oops") <= INT_MAX ->
          (4 : Z) = Z.of_nat (String.length "oops"))).
Proof.
  intros w'.
  apply (printf_dispatch sudo_plugin_h (3 + 4096) "oops" quiet 4 w'). reflexivity.
Defined.

(** A write that the stream cannot take leaves its error in [errno]. *)
Example printf_short_write :
  fuzz_printf sudo_plugin_h 3 "oops"
    {| out := mk_FILE "" None; err := mk_FILE "" (Some 2%nat); errno := 0 |}
  = (-1, {| out := mk_FILE "" None; err := mk_FILE "oo" (Some 0%nat); errno := ENOSPC |}).
Proof. reflexivity. Qed.

Lemma append_cstring s t : nul_free s = true -> cstring (s +:+ t) = s +:+ cstring t.
Proof.
  induction s as [|c s IH]; intros Hn; [reflexivity|].
  cbn [nul_free] in Hn. apply andb_true_iff in Hn as [Hc Hn]. apply negb_true_iff in Hc.
  rewrite !append_cons. cbn [cstring]. by rewrite Hc, IH.
Qed.

Lemma cstring_slash s : first_byte s = "/"%char -> first_byte (cstring s) = "/"%char.
Proof. intros H. by rewrite first_byte_cstring. Qed.

(** Extra X13.  The stub of find_path finds every command.  It makes one
    allocation; when that is granted (and, for a relative name, the path
    is no longer than an [int] counts) it returns FOUND with an absolute
    path: the name itself when it begins with a slash, the name below
    /usr/bin otherwise, the empty name too.  A path it returned is found
    again unchanged.  When the allocation is refused it returns NOT_FOUND
    and a NULL path. *)
Theorem find_path_finds R mem_ok infile k :
  strlen infile + 9 <= 2 ^ 31 - 1 ->
  exists r outfile,
    find_path R mem_ok infile k = Some ((r, outfile), S k)
    /\ (mem_ok k = false -> r = NOT_FOUND R /\ outfile = None)
    /\ (mem_ok k = true ->
        r = FOUND R
        /\ exists p,
             outfile = Some p
             /\ p = (if Ascii.eqb (first_byte infile) "/" then cstring infile
                     else "/usr/bin/" +:+ cstring infile)
             /\ first_byte p = "/"%char
             /\ forall k2, mem_ok k2 = true ->
                  find_path R mem_ok p k2 = Some ((FOUND R, Some p), S k2)).
Proof.
  intros Hlen. unfold find_path, asprintf_usr_bin, strdup, bind, request, ret.
  destruct (Ascii.eqb_spec (first_byte infile) "/") as [Ea|Ea].
  - (* an absolute name *)
    destruct (mem_ok k) eqn:Ek; eexists _, _; (split; [reflexivity|]);
      (split; [intros; try discriminate; by split|]); intros; try discriminate.
    split; [reflexivity|]. exists (cstring infile). split; [reflexivity|].
    split; [reflexivity|]. split; [by apply cstring_slash|].
    intros k2 Hk2. rewrite cstring_slash by assumption.
    change (Ascii.eqb "/" "/") with true. cbv beta iota.
    by rewrite Hk2, cstring_idem.
  - (* a relative name *)
    assert ((Z.of_nat (String.length ("/usr/bin/" +:+ cstring infile)) <=? 2 ^ 31 - 1) = true)
      as Efit.
    { apply Z.leb_le. rewrite length_append. unfold strlen in Hlen.
      change (String.length "/usr/bin/") with 9%nat. lia. }
    rewrite Efit.
    destruct (mem_ok k) eqn:Ek; cbn [andb fst snd].
    + rewrite (proj2 (Z.eqb_neq _ (-1))) by lia.
      eexists _, _. split; [reflexivity|]. split; [discriminate|]. intros _.
      split; [reflexivity|]. eexists. split; [reflexivity|]. split; [reflexivity|].
      split; [reflexivity|]. intros k2 Hk2.
      change (first_byte ("/usr/bin/" +:+ cstring infile)) with "/"%char.
      change (Ascii.eqb "/" "/") with true. cbv beta iota.
      rewrite Hk2. by rewrite (append_cstring "/usr/bin/") by reflexivity; rewrite cstring_idem.
    + eexists _, _. split; [reflexivity|]. split; [by split | discriminate].
Qed.

Lemma find_path_finds_witness :
  let R := {| FOUND := 0; NOT_FOUND := 1 |} in
  exists r outfile,
    find_path R (fun _ => true) "id" 0%nat = Some ((r, outfile), 1%nat)
    /\ ((fun _ : nat => true) 0%nat = false -> r = NOT_FOUND R /\ outfile = None)
    /\ ((fun _ : nat => true) 0%nat = true ->
        r = FOUND R
        /\ exists p,
             outfile = Some p
             /\ p = (if Ascii.eqb (first_byte "id") "/" then cstring "id"
                     else "/usr/bin/" +:+ cstring "id")
             /\ first_byte p = "/"%char
             /\ forall k2, (fun _ : nat => true) k2 = true ->
                  find_path R (fun _ => true) p k2 = Some ((FOUND R, Some p), S k2)).
Proof.
  intros R. apply (find_path_finds R (fun _ => true) "id" 0%nat). vm_compute. discriminate.
Defined.

Lemma substring_prefix n s : String.prefix (String.substring 0 n s) s = true.
Proof.
  revert n. induction s as [|c s IH]; intros [|n]; try reflexivity.
  cbn. destruct (ascii_dec c c); [apply IH | congruence].
Qed.

Lemma substring_length n s :
  String.length (String.substring 0 n s) = Nat.min n (String.length s).
Proof.
  revert n. induction s as [|c s IH]; intros [|n]; try reflexivity.
  cbn. by rewrite IH.
Qed.

Lemma substring_whole n s :
  (String.length s <= n)%nat -> String.substring 0 n s = s.
Proof.
  revert n. induction s as [|c s IH]; intros [|n] H; try reflexivity.
  - cbn in H. lia.
  - cbn in *. rewrite IH by lia. reflexivity.
Qed.

(** Extra X14.  The stub of expand_iolog_path copies, it expands nothing.
    It reports success exactly when the input with its terminator fits the
    buffer, and the buffer then holds the input.  In every case with a
    buffer of at least one byte the buffer holds a prefix of the input, as
    long as the input or one byte short of the buffer, whichever is less;
    a buffer of no bytes is not written and the call fails. *)
Theorem expand_iolog_path_copies inpath pathlen ok path :
  0 <= pathlen ->
  expand_iolog_path inpath pathlen = (ok, path) ->
  (ok = true <-> strlen inpath < pathlen)
  /\ (ok = true -> path = Some (cstring inpath))
  /\ (pathlen = 0 -> ok = false /\ path = None)
  /\ (0 < pathlen ->
      exists p, path = Some p
        /\ String.prefix p (cstring inpath) = true
        /\ Z.of_nat (String.length p) = Z.min (strlen inpath) (pathlen - 1)).
Proof.
  intros Hp. unfold expand_iolog_path, strlcpy. cbn [fst snd]. intros [= <- <-].
  split; [apply Z.ltb_lt|]. split; [|split].
  - intros H%Z.ltb_lt. rewrite (proj2 (Z.eqb_neq _ _)) by (unfold strlen in H; lia).
    rewrite substring_whole; [reflexivity|]. unfold strlen in H. lia.
  - intros ->. split; [|reflexivity]. apply Z.ltb_ge. unfold strlen. lia.
  - intros H. rewrite (proj2 (Z.eqb_neq _ _)) by lia. eexists. split; [reflexivity|].
    split; [apply substring_prefix|]. rewrite substring_length. unfold strlen. lia.
Qed.

Lemma expand_iolog_path_copies_witness :
  (false = true <-> strlen "/var/log" < 5)
  /\ (false = true -> Some "/var" = Some (cstring "/var/log"))
  /\ (5 = 0 -> false = false /\ Some "/var" = None)
  /\ (0 < 5 ->
      exists p, Some "/var" = Some p
        /\ String.prefix p (cstring "/var/log") = true
        /\ Z.of_nat (String.length p) = Z.min (strlen "/var/log") (5 - 1)).
Proof.
  apply (expand_iolog_path_copies "/var/log" 5 false (Some "/var")); [lia | reflexivity].
Defined.

(** Extra X15.  The list of name service back ends is built once.
    Starting from the empty static list, after any number of calls, one or
    more, the list holds the file back end exactly once; a call on a list
    that is not empty changes nothing. *)
Theorem sudo_read_nss_once n snl :
  Nat.iter (S n) sudo_read_nss [] = [sudo_nss_file]
  /\ (snl <> [] -> sudo_read_nss snl = snl)
  /\ sudo_read_nss (sudo_read_nss snl) = sudo_read_nss snl.
Proof.
  split; [|split].
  - induction n as [|n IH]; [reflexivity|].
    change (Nat.iter (S (S n)) sudo_read_nss [])
      with (sudo_read_nss (Nat.iter (S n) sudo_read_nss [])).
    rewrite IH. reflexivity.
  - by destruct snl.
  - by destruct snl.
Qed.

(** ** The conversation callback: the message count *)

Lemma conv_loop_take T msgs : forall todo n w,
  (n + todo <= length msgs)%nat ->
  conv_loop T todo n msgs w = Some (conv_list T (take todo (drop n msgs)) w).
Proof.
  intros todo. induction todo as [|todo IH]; intros n w Hlen.
  - reflexivity.
  - cbn [conv_loop].
    destruct (msgs !! n) as [m|] eqn:Hm.
    2:{ apply lookup_ge_None in Hm. lia. }
    rewrite (drop_S _ _ _ Hm). cbn [take conv_list].
    destruct (conv_message T m w) as [[|r] w']; [|reflexivity].
    apply IH. lia.
Qed.

Lemma conv_list_result T msgs : forall w,
  (conv_list T msgs w).1 = 0 \/ (conv_list T msgs w).1 = -1.
Proof.
  induction msgs as [|m msgs IH]; intros w; [by left|].
  cbn [conv_list]. destruct (conv_message T m w) as [[|r] w'] eqn:E; [apply IH|].
  right. apply (conv_message_returns T m w r w' E).
Qed.

(** Extra X16.  The conversation callback reads no message beyond the
    count it is given: when the count is at most the length of the array
    the call is defined, its result is 0 or -1, and result and output are
    those of the first [num_msgs] messages alone, whatever follows them.
    A count of zero or less returns 0 and writes nothing. *)
Theorem conversation_reads_count T num_msgs msgs w :
  num_msgs <= Z.of_nat (length msgs) ->
  exists r w',
    fuzz_conversation T num_msgs msgs w = Some (r, w')
    /\ (r = 0 \/ r = -1)
    /\ (r, w') = conv_list T (take (Z.to_nat num_msgs) msgs) w
    /\ (forall more, fuzz_conversation T num_msgs (msgs ++ more) w = Some (r, w'))
    /\ (num_msgs <= 0 -> r = 0 /\ w' = w).
Proof.
  intros Hn. unfold fuzz_conversation.
  destruct (conv_list T (take (Z.to_nat num_msgs) msgs) w) as [r w'] eqn:E.
  exists r, w'. split; [|split; [|split; [|split]]].
  - rewrite conv_loop_take by lia. rewrite drop_0, E. reflexivity.
  - pose proof (conv_list_result T (take (Z.to_nat num_msgs) msgs) w) as H.
    rewrite E in H. exact H.
  - reflexivity.
  - intros more. rewrite conv_loop_take by (rewrite length_app; lia).
    rewrite drop_0, take_app_le by lia. rewrite E. reflexivity.
  - intros H0. assert (Z.to_nat num_msgs = 0%nat) as Hz by lia.
    rewrite Hz in E. cbn in E. by injection E as <- <-.
Qed.

Lemma conversation_reads_count_witness :
  let msgs := [mk_msg 3 (Some "a"); mk_msg 1 (Some "ask")] in
  exists r w1,
    fuzz_conversation sudo_plugin_h 1 msgs quiet = Some (r, w1)
    /\ (r = 0 \/ r = -1)
    /\ (r, w1) = conv_list sudo_plugin_h (take (Z.to_nat 1) msgs) quiet
    /\ (forall more, fuzz_conversation sudo_plugin_h 1 (msgs ++ more) quiet = Some (r, w1))
    /\ (1 <= 0 -> r = 0 /\ w1 = quiet).
Proof.
  intros msgs. apply (conversation_reads_count sudo_plugin_h 1 msgs quiet). cbn. lia.
Defined.

